(** * phylodist.histogram: taxonomy histograms over pandas tables

    A shallow embedding of [src/phylodist/histogram.py].  The program is a
    short pandas script, so the development has three layers:

    - a small model of the pandas values the script touches (labels, cells,
      [Index], [Series], [DataFrame]) and of the pandas operations it calls,
      each named after the call it stands for;
    - a state-and-exception monad over a heap of [DataFrame] objects and the
      standard output, in which [computeAll], [validateSampleDictTaxHistDict],
      [mergeAcrossSamples] and [mergeAcrossSamplesTaxLevels] are written
      statement by statement;
    - the properties of these functions.

    Binary64 arithmetic is idealised: a float cell carries an exact rational.
    A join looks a row up by its label and takes the first row that has it;
    the row labels of a histogram are group keys, which are unique.  Two
    tables share no [Index] object: an index belongs to its table. *)

From Stdlib Require Import ZArith QArith.
From stdpp Require Import base decidable option list strings sorting.

(** ** Python and pandas values *)

(** A table cell: a missing value, a string, an int64 or a float64. *)
Inductive cell :=
| NaN
| Str (s : string)
| Int (z : Z)
| Float (q : Q).

(** A row or column label: a single value, or a tuple of values (the entries
    of a [MultiIndex], or a flat index that holds tuples). *)
Inductive label :=
| Scalar (s : string)
| Tuple (t : list string).

(** [pandas.Index]: the labels in order, and [names] (one name per level;
    [name] of a flat index is the only entry). *)
Record Index := mkIndex {
  labels : list label;
  names : list (option string)
}.

(** [pandas.Series]. *)
Record Series := mkSeries {
  s_index : Index;
  s_values : list cell
}.

(** [pandas.DataFrame], column-major: [data] has one list per entry of
    [columns], each as long as [index].  [attrs] are the plain Python
    attributes set on the object besides those pandas defines. *)
Record DataFrame := mkDF {
  index : Index;
  columns : Index;
  data : list (list cell);
  attrs : list (string * list string)
}.

(** Python exceptions the module can raise or let through. *)
Inductive exn :=
| TypeError (msg : string)
| ValueError (msg : string)
| KeyError (key : string)
| AttributeError (msg : string)
| IndexError (msg : string)
| UnboundLocalError (name : string).

(** An object reference: the position of the object in the heap. *)
Abbreviation ref := nat (only parsing).

(** The Python values passed to the functions of the module.  A [dict] keeps
    its entries in iteration order; its keys are strings. *)
#[warnings="-register-all"]
Inductive value :=
| VNone
| VStr (s : string)
| VInt (z : Z)
| VFrame (r : ref)
| VDict (d : list (string * value)).

#[global] Instance cell_inhabited : Inhabited cell := populate NaN.
#[global] Instance label_inhabited : Inhabited label := populate (Scalar "").
#[global] Instance label_eq_dec : EqDecision label.
Proof. solve_decision. Defined.

(** ** Order on labels

    Python compares strings by code point and tuples lexicographically. *)

Fixpoint tuple_leb (a b : list string) : bool :=
  match a, b with
  | [], _ => true
  | _ :: _, [] => false
  | x :: a', y :: b' =>
      if decide (x = y) then tuple_leb a' b' else String.leb x y
  end.

Definition label_leb (a b : label) : bool :=
  match a, b with
  | Scalar x, Scalar y => String.leb x y
  | Scalar _, Tuple _ => true
  | Tuple _, Scalar _ => false
  | Tuple x, Tuple y => tuple_leb x y
  end.

Definition label_le (a b : label) : Prop := label_leb a b = true.

#[global] Instance label_le_dec : RelDecision label_le.
Proof. intros a b. unfold label_le. apply _. Defined.

(** ** Association lists *)

Fixpoint assoc {K V : Type} `{EqDecision K} (k : K) (l : list (K * V)) : option V :=
  match l with
  | [] => None
  | (k', v) :: l' => if decide (k = k') then Some v else assoc k l'
  end.

(** [d[k] = v] on a dict: the entry keeps its place when the key exists. *)
Fixpoint dict_set {V : Type} (k : string) (v : V) (d : list (string * V)) : list (string * V) :=
  match d with
  | [] => [(k, v)]
  | (k', v') :: d' => if decide (k = k') then (k, v) :: d' else (k', v') :: dict_set k v d'
  end.

(** ** Cell arithmetic (numpy element-wise operations) *)

(** Addition as [sum] uses it: a missing value on the right is skipped. *)
Definition cell_add (a b : cell) : cell :=
  match a, b with
  | Int x, Int y => Int (x + y)
  | Int x, Float y => Float (inject_Z x + y)
  | Float x, Int y => Float (x + inject_Z y)
  | Float x, Float y => Float (x + y)
  | x, NaN => x
  | _, _ => NaN
  end.

Definition cell_mul (a b : cell) : cell :=
  match a, b with
  | Int x, Int y => Int (x * y)
  | Int x, Float y => Float (inject_Z x * y)
  | Float x, Int y => Float (x * inject_Z y)
  | Float x, Float y => Float (x * y)
  | _, _ => NaN
  end.

(** [float(c)]. *)
Definition cell_float (c : cell) : cell :=
  match c with
  | Int z => Float (inject_Z z)
  | Float q => Float q
  | _ => NaN
  end.

(** True division; numpy yields [nan] or [inf] on a zero divisor, both
    rendered as [NaN]. *)
Definition cell_div (a b : cell) : cell :=
  match cell_float a, cell_float b with
  | Float x, Float y => if Qeq_bool y 0 then NaN else Float (x / y)
  | _, _ => NaN
  end.

(** [x.sum()] of a column: missing values are skipped. *)
Definition series_sum (x : list cell) : cell := foldl cell_add (Int 0) x.

(** ** pandas operations *)

(** [df[c]] as a list of cells. *)
Definition column (df : DataFrame) (c : label) : option (list cell) :=
  assoc c (zip (labels (columns df)) (data df)).

(** Row [i] of the columns [cols]. *)
Definition row_of (cols : list (list cell)) (i : nat) : list cell :=
  (λ col, col !!! i) <$> cols.

Definition cell_str (c : cell) : option string :=
  match c with Str s => Some s | _ => None end.

(** The group key of a row: [None] when one of the key cells is missing;
    [groupby] leaves such rows out.  Taxonomy columns hold strings. *)
Definition key_of_row (r : list cell) : option (list string) := mapM cell_str r.

(** Grouping by one column yields a flat index, by several a [MultiIndex]. *)
Definition make_label (k : list string) : label :=
  match k with
  | [s] => Scalar s
  | _ => Tuple k
  end.

(** Count one more row under key [k]; the groups stay sorted by key. *)
Fixpoint count_insert (k : label) (g : list (label * Z)) : list (label * Z) :=
  match g with
  | [] => [(k, 1%Z)]
  | (k', n) :: g' =>
      if decide (k = k') then (k', (n + 1)%Z) :: g'
      else if label_leb k k' then (k, 1%Z) :: g
      else (k', n) :: count_insert k g'
  end.

Definition group_sizes (keys : list label) : list (label * Z) :=
  foldl (λ g k, count_insert k g) [] keys.

(** The rows of [df] restricted to the columns [cols]. *)
Definition key_rows (df : DataFrame) (cols : list (list cell)) : list (list cell) :=
  row_of cols <$> seq 0 (length (labels (index df))).

(** [df.groupby(keys).size()]. *)
Definition groupby_size (df : DataFrame) (keys : list string) : exn + Series :=
  match mapM (λ c, column df (Scalar c)) keys with
  | None => inl (KeyError "groupby")
  | Some cols =>
      let g := group_sizes (make_label <$> omap key_of_row (key_rows df cols)) in
      inr {| s_index := {| labels := g.*1; names := Some <$> keys |};
             s_values := Int <$> g.*2 |}
  end.

(** [pd.DataFrame({name: s})]. *)
Definition DataFrame_of_series (name : string) (s : Series) : DataFrame :=
  {| index := s_index s;
     columns := {| labels := [Scalar name]; names := [None] |};
     data := [s_values s];
     attrs := [] |}.

(** [df.take(indexer)]: the rows at the positions [p], in that order. *)
Definition take_rows (p : list nat) (df : DataFrame) : DataFrame :=
  {| index := {| labels := (λ i, labels (index df) !!! i) <$> p;
                 names := names (index df) |};
     columns := columns df;
     data := (λ col, (λ i, col !!! i) <$> p) <$> data df;
     attrs := [] |}.

(** [df.apply(f)]: [f] is applied to each column. *)
Definition apply (f : list cell → list cell) (df : DataFrame) : DataFrame :=
  {| index := index df; columns := columns df; data := f <$> data df; attrs := [] |}.

(** Values of [col], which is labelled by [old], at the labels [new]. *)
Definition reindex (old new : list label) (col : list cell) : list cell :=
  (λ k, default NaN (assoc k (zip old col))) <$> new.

(** Replace the column [c], or append it when [df] has no such column. *)
Fixpoint set_column (c : label) (v : list cell) (cs : list label) (d : list (list cell))
  : list label * list (list cell) :=
  match cs, d with
  | c' :: cs', v' :: d' =>
      if decide (c = c') then (cs, v :: d')
      else let '(cs'', d'') := set_column c v cs' d' in (c' :: cs'', v' :: d'')
  | _, _ => ([c], [v])
  end.

(** [df[c] = value] for a one-column frame [value]: the values are taken as
    they are when both frames have the same index, else aligned by label. *)
Definition setitem (df : DataFrame) (c : label) (value : DataFrame) : exn + DataFrame :=
  match data value with
  | [v] =>
      let v' := if decide (labels (index value) = labels (index df)) then v
                else reindex (labels (index value)) (labels (index df)) v in
      let '(cs, d) := set_column c v' (labels (columns df)) (data df) in
      inr {| index := index df;
             columns := {| labels := cs; names := names (columns df) |};
             data := d;
             attrs := attrs df |}
  | _ => inl (ValueError "Wrong number of items passed")
  end.

(** [df.drop(c, 1)]. *)
Definition drop (c : label) (df : DataFrame) : exn + DataFrame :=
  if decide (c ∈ labels (columns df)) then
    let kept := filter (λ p, p.1 ≠ c) (zip (labels (columns df)) (data df)) in
    inr {| index := index df;
           columns := {| labels := kept.*1; names := names (columns df) |};
           data := kept.*2;
           attrs := [] |}
  else inl (ValueError "labels not contained in axis").

(** [df.rename(columns={old: new})]. *)
Definition rename (old new : label) (df : DataFrame) : DataFrame :=
  {| index := index df;
     columns := {| labels := (λ c, if decide (c = old) then new else c) <$> labels (columns df);
                   names := names (columns df) |};
     data := data df;
     attrs := attrs df |}.

(** The index of an outer join: the union of the labels of both sides,
    sorted. *)
Definition join_index (l r : list label) : list label :=
  merge_sort label_le (remove_dups (l ++ r)).

Definition join_names (l r : list (option string)) : list (option string) :=
  if decide (l = r) then l else const None <$> l.

(** [pd.merge(left, right, how='outer', left_index=True, right_index=True)].
    The columns of both sides are kept under their labels: the columns the
    script joins are named after distinct samples, so that the suffixes
    pandas gives to clashing labels do not arise. *)
Definition merge_outer (left right : DataFrame) : DataFrame :=
  let j := join_index (labels (index left)) (labels (index right)) in
  {| index := {| labels := j; names := join_names (names (index left)) (names (index right)) |};
     columns := {| labels := labels (columns left) ++ labels (columns right); names := [None] |};
     data := (reindex (labels (index left)) j <$> data left)
             ++ (reindex (labels (index right)) j <$> data right);
     attrs := [] |}.

(** [pd.merge(left, right, how='left', left_index=True, right_index=True)]. *)
Definition merge_left (left right : DataFrame) : DataFrame :=
  let j := labels (index left) in
  {| index := index left;
     columns := {| labels := labels (columns left) ++ labels (columns right); names := [None] |};
     data := data left ++ (reindex (labels (index right)) j <$> data right);
     attrs := [] |}.

(** [df.T]. *)
Definition transpose (df : DataFrame) : DataFrame :=
  {| index := columns df;
     columns := index df;
     data := row_of (data df) <$> seq 0 (length (labels (index df)));
     attrs := [] |}.

(** [isinstance(l, tuple)]. *)
Definition is_tuple (l : label) : bool :=
  match l with Tuple _ => true | Scalar _ => false end.

Definition arity (l : label) : nat :=
  match l with Tuple t => length t | Scalar _ => 1 end.

(** [pd.MultiIndex.from_tuples(ix)], called without [names]: as many levels
    as the first tuple has entries, none of them named.  The labels are kept
    as they are. *)
Definition MultiIndex_from_tuples (ix : Index) : Index :=
  {| labels := labels ix;
     names := replicate (arity (default (Scalar "") (head (labels ix)))) None |}.

(** ** What the module imports

    [TAXONOMY_HIERARCHY] comes from [phylodist.constants], which is not part
    of the sources at hand: it is a parameter of the development. *)
Class Hierarchy := TAXONOMY_HIERARCHY : list string.

(** The indexer pandas computes for [sort(by, ascending=False)]: position
    [j] of the result names the row that comes [j]-th.  The script leaves
    [kind] at its default, so the order of equal keys is the library's
    choice; the development fixes only the contract [ArgsortContract]. *)
Class Argsort := argsort_desc : list cell → list nat.

Class ArgsortContract `{Argsort} : Prop := {
  argsort_desc_perm (zs : list Z) :
    argsort_desc (Int <$> zs) ≡ₚ seq 0 (length zs);
  argsort_desc_sorted (zs : list Z) :
    Sorted Z.ge ((λ i, zs !!! i) <$> argsort_desc (Int <$> zs))
}.

(** [df.sort(name, ascending=False)]. *)
Definition sort `{Argsort} (name : string) (df : DataFrame) : exn + DataFrame :=
  match column df (Scalar name) with
  | Some col => inr (take_rows (argsort_desc col) df)
  | None => inl (KeyError name)
  end.

(** ** The interpreter state and its monad *)

Record state := mkState {
  heap : list DataFrame;
  stdout : list string
}.

Definition M (A : Type) : Type := state → state * (exn + A).

#[global] Instance M_ret : MRet M := λ A a σ, (σ, inr a).
#[global] Instance M_bind : MBind M := λ A B f m σ,
  match m σ with
  | (σ', inr a) => f a σ'
  | (σ', inl e) => (σ', inl e)
  end.

Definition raise {A : Type} (e : exn) : M A := λ σ, (σ, inl e).

Definition lift {A : Type} (r : exn + A) : M A := λ σ, (σ, r).

(** A new object; its reference is the next free position. *)
Definition alloc (df : DataFrame) : M ref := λ σ,
  ({| heap := heap σ ++ [df]; stdout := stdout σ |}, inr (length (heap σ))).

Definition read (r : ref) : M DataFrame := λ σ,
  match heap σ !! r with
  | Some df => (σ, inr df)
  | None => (σ, inl (AttributeError "no such object"))
  end.

(** In-place update of the object at [r]. *)
Definition write (r : ref) (df : DataFrame) : M unit := λ σ,
  ({| heap := <[r := df]> (heap σ); stdout := stdout σ |}, inr ()).

(** [sys.stdout.write(s)] and [print(s)]. *)
Definition stdout_write (s : string) : M unit := λ σ,
  ({| heap := heap σ; stdout := stdout σ ++ [s] |}, inr ()).

Fixpoint foldM {A B : Type} (f : A → B → M A) (a : A) (l : list B) : M A :=
  match l with
  | [] => mret a
  | b :: l' => a' ← f a b; foldM f a' l'
  end.

(** [v[k]]. *)
Definition getitem (v : value) (k : string) : M value :=
  match v with
  | VDict d =>
      match assoc k d with
      | Some x => mret x
      | None => raise (KeyError k)
      end
  | _ => raise (TypeError "object is not subscriptable")
  end.

(** The receiver of a [DataFrame] method call. *)
Definition as_frame (v : value) : M ref :=
  match v with
  | VFrame r => mret r
  | _ => raise (AttributeError "object has no such attribute")
  end.

(** ** The functions of [phylodist/histogram.py] *)

(** [lambda x: 100 * x / float(x.sum())]. *)
Definition percent_of (x : list cell) : list cell :=
  (λ c, cell_div (cell_mul (Int 100) c) (cell_float (series_sum x))) <$> x.

(** One turn of the loop of [computeAll]. *)
Definition computeAll_step `{Hierarchy, Argsort} (phylodistDataFrame : ref)
    (taxHistDict : list (string * ref)) (it : nat * string) : M (list (string * ref)) :=
  let '(i, taxLevel) := it in
  df ← read phylodistDataFrame;
  size ← lift (groupby_size df (take (S i) TAXONOMY_HIERARCHY));
  sorted ← lift (sort "count" (DataFrame_of_series "count" size));
  h ← alloc sorted;
  let taxHistDict := dict_set taxLevel h taxHistDict in
  f ← read h;
  let percent := apply percent_of f in
  f' ← read h;
  g ← lift (setitem f' (Scalar "percent") percent);
  write h g;;
  mret taxHistDict.

Definition computeAll `{Hierarchy, Argsort} (phylodistDataFrame : ref) : M (list (string * ref)) :=
  foldM (computeAll_step phylodistDataFrame) []
        (zip (seq 0 (length TAXONOMY_HIERARCHY)) TAXONOMY_HIERARCHY).

Definition validateSampleDictTaxHistDict (sampleDictTaxHistDict : value) : M unit :=
  match sampleDictTaxHistDict with
  | VDict d =>
      let samples := length d in
      if decide (samples < 1) then
        raise (ValueError "argument sampleDictTaxHistDict must have at least one entry")
      else mret ()
  | _ => raise (TypeError "argument sampleDictTaxHistDict should be a dict")
  end.

(** [d.keys()]. *)
Definition dict_keys (v : value) : list string :=
  match v with
  | VDict d => d.*1
  | _ => []
  end.

(** One turn of the loop of [mergeAcrossSamples]; the loop carries [first]
    and [mergedPhylodistHist], which is unbound before the first turn. *)
Definition mergeAcrossSamples_step (sampleDictTaxHistDict : value) (taxonomyLevel : string)
    (vars : bool * option ref) (sample : string) : M (bool * option ref) :=
  let '(first, mergedPhylodistHist) := vars in
  hists ← getitem sampleDictTaxHistDict sample;
  hist ← getitem hists taxonomyLevel;
  h ← as_frame hist;
  df ← read h;
  dropped ← lift (drop (Scalar "count") df);
  tmpDF ← alloc dropped;
  if first then
    t ← read tmpDF;
    m ← alloc (rename (Scalar "percent") (Scalar sample) t);
    mret (false, Some m)
  else
    t ← read tmpDF;
    write tmpDF (rename (Scalar "percent") (Scalar sample) t);;
    match mergedPhylodistHist with
    | None => raise (UnboundLocalError "mergedPhylodistHist")
    | Some merged =>
        l ← read merged;
        r ← read tmpDF;
        m ← alloc (merge_outer l r);
        mret (false, Some m)
    end.

Definition mergeAcrossSamples `{Hierarchy} (sampleDictTaxHistDict : value)
    (taxonomyLevel : string) (verbose : bool) : M ref :=
  if decide (taxonomyLevel ∈ TAXONOMY_HIERARCHY) then
    validateSampleDictTaxHistDict sampleDictTaxHistDict;;
    (if verbose then
       stdout_write ("merging across samples for " +:+ taxonomyLevel +:+ " ... ")
     else mret ());;
    vars ← foldM (mergeAcrossSamples_step sampleDictTaxHistDict taxonomyLevel)
                 (true, None) (dict_keys sampleDictTaxHistDict);
    (if verbose then stdout_write "done" else mret ());;
    match vars.2 with
    | Some merged => mret merged
    | None => raise (UnboundLocalError "mergedPhylodistHist")
    end
  else
    raise (ValueError ("taxonomy level " +:+ taxonomyLevel +:+ " is not recognized")).

(** [tmpDF.index.name = name]. *)
Definition set_index_name (name : string) (df : DataFrame) : DataFrame :=
  {| index := {| labels := labels (index df); names := [Some name] |};
     columns := columns df; data := data df; attrs := attrs df |}.

(** [tmpDF.index = ix]. *)
Definition set_index (ix : Index) (df : DataFrame) : DataFrame :=
  {| index := ix; columns := columns df; data := data df; attrs := attrs df |}.

(** [tmpDF.a = v] for a name [a] that pandas does not define on a frame:
    a plain attribute of the object. *)
Definition set_attr (a : string) (v : list string) (df : DataFrame) : DataFrame :=
  {| index := index df; columns := columns df; data := data df;
     attrs := dict_set a v (attrs df) |}.

(** [pd.merge(left, metadata, how='left', left_index=True, right_index=True)]
    for the Python value [metadata]: the join reads the index of its right
    operand, which [None] does not have. *)
Definition pd_merge_left (left : DataFrame) (metadata : value) : M DataFrame :=
  match metadata with
  | VFrame r => right ← read r; mret (merge_left left right)
  | _ => raise (AttributeError "'NoneType' object has no attribute 'index'")
  end.

(** [isinstance(v, pd.DataFrame)]. *)
Definition is_DataFrame (v : value) : bool :=
  match v with VFrame _ => true | _ => false end.

Definition is_None (v : value) : bool :=
  match v with VNone => true | _ => false end.

(** One turn of the loop of [mergeAcrossSamplesTaxLevels]. *)
Definition mergeAcrossSamplesTaxLevels_step `{Hierarchy} (sampleDictTaxHistDict metadata : value)
    (taxonomyDictTaxHist : list (string * ref)) (taxonomyLevel : string)
  : M (list (string * ref)) :=
  merged ← mergeAcrossSamples sampleDictTaxHistDict taxonomyLevel true;
  m ← read merged;
  tmpDF ← alloc (transpose m);
  t ← read tmpDF;
  write tmpDF (set_index_name "sample" t);;
  l ← read tmpDF;
  joined ← pd_merge_left l metadata;
  tmpDF ← alloc joined;
  j ← read tmpDF;
  tmpDF ← alloc (transpose j);
  t ← read tmpDF;
  match head (labels (index t)) with
  | None => raise (IndexError "index 0 is out of bounds for axis 0 with size 0")
  | Some row0 =>
      if is_tuple row0 then
        write tmpDF (set_index (MultiIndex_from_tuples (index t)) t);;
        t' ← read tmpDF;
        write tmpDF (set_attr "names" (take (arity row0) TAXONOMY_HIERARCHY) t')
      else
        write tmpDF (set_index_name taxonomyLevel t)
  end;;
  mret (dict_set taxonomyLevel tmpDF taxonomyDictTaxHist).

Definition mergeAcrossSamplesTaxLevels `{Hierarchy} (sampleDictTaxHistDict metadata : value)
  : M (list (string * ref)) :=
  validateSampleDictTaxHistDict sampleDictTaxHistDict;;
  (if negb (is_None metadata) && negb (is_DataFrame metadata) then
     raise (TypeError "metadata argument must be None or a DataFrame")
   else mret ());;
  foldM (mergeAcrossSamplesTaxLevels_step sampleDictTaxHistDict metadata) []
        TAXONOMY_HIERARCHY.

(** ** Notions used to state the properties *)

(** [m] leaves the first [n] objects of the heap as they are, removes no
    object, and what it returns satisfies [Q]. *)
Definition preserves {A : Type} (n : nat) (Q : A → Prop) (m : M A) : Prop :=
  ∀ σ, n ≤ length (heap σ) →
    take n (heap (m σ).1) = take n (heap σ) ∧
    length (heap σ) ≤ length (heap (m σ).1) ∧
    ∀ a, (m σ).2 = inr a → Q a.

(** The histogram [computeAll] builds from the table [df] for the key
    columns [keys], as a value. *)
Definition level_histogram `{Argsort} (df : DataFrame) (keys : list string)
  : exn + DataFrame :=
  match groupby_size df keys with
  | inl e => inl e
  | inr size =>
      match sort "count" (DataFrame_of_series "count" size) with
      | inl e => inl e
      | inr sorted => setitem sorted (Scalar "percent") (apply percent_of sorted)
      end
  end.

(** The records of [df] that have a value in each of the columns [keys],
    as their key tuples. *)
Definition classified (df : DataFrame) (keys : list string) : list (list string) :=
  match mapM (λ c, column df (Scalar c)) keys with
  | Some cols => omap key_of_row (key_rows df cols)
  | None => []
  end.

(** [df] has a column for every level of the hierarchy. *)
Definition has_levels `{Hierarchy} (df : DataFrame) : Prop :=
  Forall (λ c, is_Some (column df (Scalar c))) TAXONOMY_HIERARCHY.

Definition cell_int (c : cell) : Z :=
  match c with Int z => z | _ => 0%Z end.

Definition sumZ (l : list Z) : Z := foldr Z.add 0%Z l.



(** The groups of [df] by the columns [keys], with their sizes, in the
    order [groupby] yields them. *)
Definition groups (df : DataFrame) (keys : list string) : list (label * Z) :=
  group_sizes (make_label <$> classified df keys).

(** The positions of the groups in the sorted histogram. *)
Definition sorted_positions `{Argsort} (df : DataFrame) (keys : list string) : list nat :=
  argsort_desc (Int <$> (groups df keys).*2).

Definition histogram_frame `{Argsort} (df : DataFrame) (keys : list string) : DataFrame :=
  let g := groups df keys in
  let p := sorted_positions df keys in
  let counts := (λ i, (Int <$> g.*2) !!! i) <$> p in
  {| index := {| labels := (λ i, g.*1 !!! i) <$> p; names := Some <$> keys |};
     columns := {| labels := [Scalar "count"; Scalar "percent"]; names := [None] |};
     data := [counts; percent_of counts];
     attrs := [] |}.

(** The dictionary [computeAll] has built after the turns [its], when the
    first histogram was stored at position [base] of the heap. *)
Fixpoint computeAll_dict (base : nat) (acc : list (string * ref))
    (its : list (nat * string)) : list (string * ref) :=
  match its with
  | [] => acc
  | (_, lvl) :: its' => computeAll_dict (S base) (dict_set lvl base acc) its'
  end.

(** The [count] column of the sorted histogram, as integers. *)
Definition sorted_counts `{Argsort} (df : DataFrame) (keys : list string) : list Z :=
  (λ i, (groups df keys).*2 !!! i) <$> sorted_positions df keys.

(** No record of [df] lacks a value in one of the columns [keys]. *)
Definition no_missing (df : DataFrame) (keys : list string) : Prop :=
  Forall (λ c, ∃ vs, column df (Scalar c) = Some (Str <$> vs) ∧
                     length vs = length (labels (index df))) keys.

(** ** A concrete environment, for the examples *)

Definition by_count_desc (a b : Z * nat) : Prop := (a.1 >= b.1)%Z.

#[global] Instance by_count_desc_dec : RelDecision by_count_desc.
Proof. intros a b. unfold by_count_desc. apply _. Defined.

(** The positions of [col], sorted by [R] on the pairs of a key and its
    position. *)
Definition argsort_by (R : relation (Z * nat)) `{!RelDecision R} : Argsort := λ col,
  (merge_sort R (zip (cell_int <$> col) (seq 0 (length col)))).*2.

(** A sort routine that meets [ArgsortContract]: a merge sort of the
    positions by decreasing key. *)
Definition merge_argsort : Argsort := argsort_by by_count_desc.

(** Decreasing key, and increasing position among equal keys. *)
Definition by_count_then_position (a b : Z * nat) : Prop :=
  (a.1 > b.1)%Z ∨ (a.1 = b.1 ∧ a.2 ≤ b.2).

#[global] Instance by_count_then_position_dec : RelDecision by_count_then_position.
Proof. intros a b. unfold by_count_then_position. apply _. Defined.


Definition example_hierarchy : list string := ["kingdom"; "phylum"].

Definition flat_index (ls : list string) : Index :=
  {| labels := Scalar <$> ls; names := [None] |}.

(** Four records; the last one has no phylum. *)
Definition example_table : DataFrame :=
  {| index := flat_index ["0"; "1"; "2"; "3"];
     columns := flat_index ["kingdom"; "phylum"];
     data := [[Str "B"; Str "A"; Str "B"; Str "B"];
              [Str "p"; Str "q"; Str "r"; NaN]];
     attrs := [] |}.

(** One record, which has no kingdom. *)
Definition unassigned_table : DataFrame :=
  {| index := flat_index ["0"];
     columns := flat_index ["kingdom"; "phylum"];
     data := [[NaN]; [Str "p"]];
     attrs := [] |}.

Definition state_of (objects : list DataFrame) : state :=
  {| heap := objects; stdout := [] |}.

(** ** Histogram collections *)

(** The histogram of level [lvl] in the per-sample dictionary [hists]. *)
Definition level_frame (σ : state) (hists : value) (lvl : string) : option DataFrame :=
  match hists with
  | VDict d =>
      match assoc lvl d with
      | Some (VFrame r) => heap σ !! r
      | _ => None
      end
  | _ => None
  end.

(** A level histogram has the columns [count] and [percent], as long as its
    index. *)
Definition is_histogram (h : DataFrame) : Prop :=
  ∃ counts percent,
    labels (columns h) = [Scalar "count"; Scalar "percent"] ∧
    data h = [counts; percent] ∧
    length percent = length (labels (index h)).

(** [entries] are the items of a histogram collection whose histograms of
    level [lvl] are [hs], in iteration order. *)
Definition valid_collection (σ : state) (entries : list (string * value))
    (lvl : string) (hs : list DataFrame) : Prop :=
  NoDup entries.*1 ∧
  Forall2 (λ e h, level_frame σ e.2 lvl = Some h ∧ is_histogram h) entries hs.

Definition percent_cells (h : DataFrame) : list cell :=
  default [] (column h (Scalar "percent")).

(** What [mergeAcrossSamples] makes of the histogram [h] of [sample] before
    it joins it: [count] dropped, [percent] named after the sample. *)
Definition sample_frame (sample : string) (h : DataFrame) : DataFrame :=
  {| index := index h;
     columns := {| labels := [Scalar sample]; names := names (columns h) |};
     data := [percent_cells h];
     attrs := [] |}.

Fixpoint merge_frames (acc : DataFrame) (l : list (string * DataFrame)) : DataFrame :=
  match l with
  | [] => acc
  | (sample, h) :: l' => merge_frames (merge_outer acc (sample_frame sample h)) l'
  end.

(** The table [mergeAcrossSamples] returns for the samples [l], as a value. *)
Definition merged_frame (l : list (string * DataFrame)) : option DataFrame :=
  match l with
  | [] => None
  | (sample, h) :: l' => Some (merge_frames (sample_frame sample h) l')
  end.

(** [df.loc[row, col]]. *)
Definition loc (df : DataFrame) (row col : label) : option cell :=
  c ← column df col; assoc row (zip (labels (index df)) c).

(** [p] is a sample of the collection [entries], with its histogram of
    level [lvl]. *)
Definition sample_of (σ : state) (entries : list (string * value)) (lvl : string)
    (p : string * DataFrame) : Prop :=
  ∃ v, assoc p.1 entries = Some v ∧ level_frame σ v lvl = Some p.2 ∧
       is_histogram p.2.

(** What [mergeAcrossSamples] prints. *)
Definition merge_messages (lvl : string) (verbose : bool) : list string :=
  if verbose then ["merging across samples for " +:+ lvl +:+ " ... "; "done"]
  else [].

(** The cell a merged table holds for the histogram [h] at row [k]:
    the sample's [percent] there, or [NaN] when [h] has no row [k]. *)
Definition sample_cell (h : DataFrame) (k : label) : cell :=
  default NaN (assoc k (zip (labels (index h)) (percent_cells h))).

(** [f] is the merged table of the samples [l]: a column per sample, in
    order; the rows are the labels of all samples; every column holds the
    sample's cell at every row. *)
Definition merged_of (f : DataFrame) (l : list (string * DataFrame)) : Prop :=
  labels (columns f) = Scalar <$> l.*1 ∧
  Forall2 (λ col p, ∀ k,
             assoc k (zip (labels (index f)) col)
             = if decide (k ∈ labels (index f)) then Some (sample_cell p.2 k)
               else None) (data f) l ∧
  (∀ k, k ∈ labels (index f) ↔ ∃ p, p ∈ l ∧ k ∈ labels (index p.2)).

(** Two samples at the first level: categories A and B with 60 and 40
    percent, and categories A and C with 70 and 30 percent. *)
Definition histogram_s1 : DataFrame :=
  {| index := {| labels := [Scalar "A"; Scalar "B"]; names := [Some "kingdom"] |};
     columns := flat_index ["count"; "percent"];
     data := [[Int 3; Int 2]; [Float 60; Float 40]];
     attrs := [] |}.

Definition histogram_s2 : DataFrame :=
  {| index := {| labels := [Scalar "A"; Scalar "C"]; names := [Some "kingdom"] |};
     columns := flat_index ["count"; "percent"];
     data := [[Int 7; Int 3]; [Float 70; Float 30]];
     attrs := [] |}.

Definition example_collection : list (string * value) :=
  [("s1", VDict [("kingdom", VFrame 0)]); ("s2", VDict [("kingdom", VFrame 1)])].


(** The histogram of sample s1 at the second level, and a metadata table
    with one column for that sample. *)
Definition histogram_s1_phylum : DataFrame :=
  {| index := {| labels := [Tuple ["A"; "p"]; Tuple ["B"; "q"]];
                 names := [Some "kingdom"; Some "phylum"] |};
     columns := flat_index ["count"; "percent"];
     data := [[Int 3; Int 2]; [Float 60; Float 40]];
     attrs := [] |}.

Definition metadata_table : DataFrame :=
  {| index := flat_index ["s1"];
     columns := flat_index ["group"];
     data := [[Str "control"]];
     attrs := [] |}.

Definition two_level_collection : list (string * value) :=
  [("s1", VDict [("kingdom", VFrame 0); ("phylum", VFrame 1)])].

Definition two_level_state : state :=
  state_of [histogram_s1; histogram_s1_phylum; metadata_table].

(** ** [computeAllForSamples]

    [phylodistSweepDict] is a dict of tables: its values are references. *)

(** One turn of the loop of [computeAllForSamples]. *)
Definition computeAllForSamples_step `{Hierarchy, Argsort}
    (phylodistSweepDict : list (string * ref))
    (sampleDictTaxHistDict : list (string * list (string * ref))) (key : string)
  : M (list (string * list (string * ref))) :=
  stdout_write ".";;
  match assoc key phylodistSweepDict with
  | Some phylodistDataFrame =>
      taxHistDict ← computeAll phylodistDataFrame;
      mret (dict_set key taxHistDict sampleDictTaxHistDict)
  | None => raise (KeyError key)
  end.

Definition computeAllForSamples `{Hierarchy, Argsort}
    (phylodistSweepDict : list (string * ref))
  : M (list (string * list (string * ref))) :=
  stdout_write "computing histograms across taxonomy hierarchy for samples";;
  sampleDictTaxHistDict ←
    foldM (computeAllForSamples_step phylodistSweepDict) [] phylodistSweepDict.*1;
  stdout_write "done";;
  mret sampleDictTaxHistDict.

(** The dict of dicts of tables that [computeAllForSamples] returns, as the
    Python value the merge functions take. *)
Definition collection_value (d : list (string * list (string * ref))) : value :=
  VDict ((λ e, (e.1, VDict ((λ l, (l.1, VFrame l.2)) <$> e.2))) <$> d).

(** Strictly before, in the order of the labels. *)
Definition label_lt (a b : label) : Prop := label_le a b ∧ a ≠ b.

(** The shape of a row label of the histogram of level number [i]: a single
    value at the first level, a tuple of [i + 1] values below. *)
Definition label_of_level (i : nat) (l : label) : Prop :=
  match i with
  | 0 => ∃ s, l = Scalar s
  | S _ => ∃ t, l = Tuple t ∧ length t = S i
  end.


(** The histograms of level [i] of the tables [tables]. *)
Definition level_histograms `{Hierarchy, Argsort} (i : nat) (tables : list DataFrame)
  : list DataFrame :=
  (λ df, histogram_frame df (take (S i) TAXONOMY_HIERARCHY)) <$> tables.

(** [m] reads nothing but the heap: from two states with the same heap it
    gives the same outcome and the same heap. *)
Definition heap_only {A : Type} (m : M A) : Prop :=
  ∀ σ1 σ2, heap σ1 = heap σ2 →
    (m σ1).2 = (m σ2).2 ∧ heap (m σ1).1 = heap (m σ2).1.

(** [m] prints nothing. *)
Definition silent {A : Type} (m : M A) : Prop :=
  ∀ σ, stdout (m σ).1 = stdout σ.

(** ** [mergeAcrossSamplesTaxLevels] with a table of metadata *)

(** The table of a level before its index is named: the merged table with
    the samples as rows, joined with the metadata, samples as columns
    again. *)
Definition joined_table (merged meta : DataFrame) : DataFrame :=
  transpose (merge_left (set_index_name "sample" (transpose merged)) meta).

(** What the script does to the index of the table, by its first row
    label. *)
Definition name_index `{Hierarchy} (lvl : string) (row0 : label) (t : DataFrame)
  : DataFrame :=
  if is_tuple row0 then
    set_attr "names" (take (arity row0) TAXONOMY_HIERARCHY)
      (set_index (MultiIndex_from_tuples (index t)) t)
  else set_index_name lvl t.




(** ** More examples *)

(** A table with the columns of the hierarchy and no record. *)
Definition empty_table : DataFrame :=
  {| index := flat_index [];
     columns := flat_index ["kingdom"; "phylum"];
     data := [[]; []];
     attrs := [] |}.


(** A sweep of two samples. *)
Definition example_sweep : list (string * ref) := [("s1", 0); ("s2", 1)].

Definition example_sweep_tables : list DataFrame := [example_table; unassigned_table].

(** A collection whose second sample has no histogram at all. *)
Definition incomplete_collection_head : list (string * value) :=
  [("s1", VDict [("kingdom", VFrame 0)])].

(** A histogram without rows, and metadata without columns. *)
Definition empty_histogram : DataFrame :=
  {| index := {| labels := []; names := [Some "kingdom"] |};
     columns := flat_index ["count"; "percent"];
     data := [[]; []];
     attrs := [] |}.

Definition bare_metadata : DataFrame :=
  {| index := flat_index ["s1"]; columns := flat_index []; data := []; attrs := [] |}.

Definition empty_collection_state : state := state_of [empty_histogram; bare_metadata].



(** * Properties *)

(** ** Running the monad *)

Lemma bind_run {A B : Type} (m : M A) (f : A → M B) (σ : state) :
  (m ≫= f) σ =
  match m σ with
  | (σ', inr a) => f a σ'
  | (σ', inl e) => (σ', inl e)
  end.
Proof. reflexivity. Qed.

Lemma read_run (r : ref) (df : DataFrame) (σ : state) :
  heap σ !! r = Some df → read r σ = (σ, inr df).
Proof. intros Hr. unfold read. by rewrite Hr. Qed.

(** ** Objects that exist before a call are left alone *)

Section preserves.
Context {A B : Type} (n : nat).
Implicit Types (m : M A) (Q : A → Prop).

Lemma preserves_ret Q (a : A) : Q a → preserves n Q (mret a).
Proof. intros Ha σ _. cbn. repeat split; [lia|]. by intros ? [= <-]. Qed.

Lemma preserves_raise Q (e : exn) : preserves n Q (raise e).
Proof. intros σ _. cbn. repeat split; [lia|]. by intros ? [=]. Qed.

Lemma preserves_lift Q (r : exn + A) :
    (∀ a, r = inr a → Q a) → preserves n Q (lift r).
Proof. intros Hr σ _. cbn. repeat split; [lia|]. done. Qed.

Lemma preserves_bind (P : A → Prop) (Q : B → Prop) m (f : A → M B) :
    preserves n P m → (∀ a, P a → preserves n Q (f a)) →
    preserves n Q (m ≫= f).
Proof.
  intros Hm Hf σ Hn. rewrite bind_run.
  destruct (Hm σ Hn) as (Ht & Hl & HP).
  destruct (m σ) as [σ' [e|a]]; cbn in *; [by eauto|].
  destruct (Hf a (HP a eq_refl) σ') as (Ht' & Hl' & HQ); [lia|].
  repeat split; [congruence|lia|done].
Qed.
End preserves.

Lemma preserves_alloc (n : nat) (df : DataFrame) :
  preserves n (λ r, n ≤ r) (alloc df).
Proof.
  intros σ Hn. cbn. repeat split.
  - by rewrite take_app_le.
  - rewrite length_app. lia.
  - by intros ? [= <-].
Qed.

Lemma preserves_read (n : nat) (r : ref) : preserves n (λ _, True) (read r).
Proof.
  intros σ Hn. unfold read. destruct (heap σ !! r); cbn; repeat split; lia.
Qed.

Lemma preserves_write (n : nat) (r : ref) (df : DataFrame) :
  n ≤ r → preserves n (λ _, True) (write r df).
Proof.
  intros Hr σ Hn. cbn. repeat split.
  - by rewrite take_insert_ge.
  - by rewrite length_insert.
Qed.

Lemma preserves_stdout_write (n : nat) (s : string) :
  preserves n (λ _, True) (stdout_write s).
Proof. intros σ Hn. cbn. repeat split; lia. Qed.

Lemma preserves_foldM {A B : Type} (n : nat) (I : A → Prop) (f : A → B → M A)
    (l : list B) (a : A) :
  (∀ a b, I a → preserves n I (f a b)) → I a → preserves n I (foldM f a l).
Proof.
  intros Hf. revert a. induction l as [|b l IH]; intros a Ha; cbn.
  - by apply preserves_ret.
  - eapply preserves_bind; [by apply Hf|]. intros a' Ha'. by apply IH.
Qed.

Lemma preserves_getitem (n : nat) (v : value) (k : string) :
  preserves n (λ _, True) (getitem v k).
Proof.
  destruct v; cbn; try apply preserves_raise.
  destruct (assoc k d); [by apply preserves_ret | apply preserves_raise].
Qed.

Lemma preserves_as_frame (n : nat) (v : value) :
  preserves n (λ _, True) (as_frame v).
Proof. destruct v; cbn; try apply preserves_raise. by apply preserves_ret. Qed.

Ltac preserves_step :=
  first
    [ eapply preserves_bind; [apply preserves_read | intros ? _]
    | eapply preserves_bind; [apply preserves_getitem | intros ? _]
    | eapply preserves_bind; [apply preserves_as_frame | intros ? _]
    | eapply preserves_bind; [apply preserves_stdout_write | intros ? _]
    | eapply preserves_bind; [by apply (preserves_lift _ (λ _, True)) | intros ? _]
    | eapply preserves_bind; [apply preserves_alloc | intros ? ?]
    | eapply preserves_bind; [by apply preserves_write | intros ? _]
    | apply preserves_raise
    | by apply preserves_ret ].

Lemma preserves_computeAll_step `{Hierarchy, Argsort} (n : nat) (r : ref)
    (d : list (string * ref)) (it : nat * string) :
  preserves n (λ _, True) (computeAll_step r d it).
Proof. destruct it as [i taxLevel]. unfold computeAll_step. repeat preserves_step. Qed.

Lemma preserves_computeAll `{Hierarchy, Argsort} (n : nat) (r : ref) :
  preserves n (λ _, True) (computeAll r).
Proof.
  apply (preserves_foldM n (λ _, True)); [|done].
  intros. apply preserves_computeAll_step.
Qed.

Lemma preserves_validate (n : nat) (v : value) :
  preserves n (λ _, True) (validateSampleDictTaxHistDict v).
Proof.
  destruct v; cbn; try apply preserves_raise.
  case_decide; [apply preserves_raise | by apply preserves_ret].
Qed.

Lemma preserves_mergeAcrossSamples_step (n : nat) (d : value) (lvl : string)
    (vars : bool * option ref) (sample : string) :
  (∀ m, vars.2 = Some m → n ≤ m) →
  preserves n (λ vars', ∀ m, vars'.2 = Some m → n ≤ m)
            (mergeAcrossSamples_step d lvl vars sample).
Proof.
  destruct vars as [first merged]. intros Hm. unfold mergeAcrossSamples_step.
  do 6 preserves_step. destruct first.
  - do 2 preserves_step. apply preserves_ret. cbn. by intros ? [= <-].
  - do 2 preserves_step. destruct merged as [m|]; [|apply preserves_raise].
    do 3 preserves_step. apply preserves_ret. cbn. by intros ? [= <-].
Qed.

Lemma preserves_mergeAcrossSamples `{Hierarchy} (n : nat) (d : value)
    (lvl : string) (verbose : bool) :
  preserves n (λ r, n ≤ r) (mergeAcrossSamples d lvl verbose).
Proof.
  unfold mergeAcrossSamples. case_decide; [|apply preserves_raise].
  eapply preserves_bind; [apply preserves_validate | intros _ _].
  eapply preserves_bind.
  { instantiate (1 := λ _, True). destruct verbose;
      [apply preserves_stdout_write | by apply preserves_ret]. }
  intros _ _. eapply preserves_bind.
  { apply (preserves_foldM n (λ vars, ∀ m, vars.2 = Some m → n ≤ m)); [|done].
    intros. by apply preserves_mergeAcrossSamples_step. }
  intros vars Hvars. eapply preserves_bind.
  { instantiate (1 := λ _, True). destruct verbose;
      [apply preserves_stdout_write | by apply preserves_ret]. }
  intros _ _. destruct (vars.2) as [m|] eqn:Hm; [|apply preserves_raise].
  apply preserves_ret. by apply Hvars.
Qed.

Lemma preserves_pd_merge_left (n : nat) (l : DataFrame) (metadata : value) :
  preserves n (λ _, True) (pd_merge_left l metadata).
Proof. destruct metadata; cbn; repeat preserves_step. Qed.

Lemma preserves_mergeAcrossSamplesTaxLevels_step `{Hierarchy} (n : nat)
    (d metadata : value) (acc : list (string * ref)) (lvl : string) :
  preserves n (λ _, True) (mergeAcrossSamplesTaxLevels_step d metadata acc lvl).
Proof.
  unfold mergeAcrossSamplesTaxLevels_step.
  eapply preserves_bind; [apply preserves_mergeAcrossSamples | intros merged Hm].
  do 5 preserves_step.
  eapply preserves_bind; [apply preserves_pd_merge_left | intros ? _].
  do 4 preserves_step.
  eapply preserves_bind; [|intros; by apply preserves_ret].
  instantiate (1 := λ _, True).
  destruct (head _) as [row0|]; [|apply preserves_raise].
  destruct (is_tuple row0); repeat preserves_step.
  all: by apply preserves_write.
Qed.

Lemma preserves_mergeAcrossSamplesTaxLevels `{Hierarchy} (n : nat)
    (d metadata : value) :
  preserves n (λ _, True) (mergeAcrossSamplesTaxLevels d metadata).
Proof.
  unfold mergeAcrossSamplesTaxLevels.
  eapply preserves_bind; [apply preserves_validate | intros _ _].
  eapply preserves_bind.
  { instantiate (1 := λ _, True).
    destruct (_ && _); [apply preserves_raise | by apply preserves_ret]. }
  intros _ _. apply (preserves_foldM n (λ _, True)); [|done].
  intros. apply preserves_mergeAcrossSamplesTaxLevels_step.
Qed.

Lemma preserves_prefix {A : Type} (Q : A → Prop) (m : M A) (σ : state) :
  preserves (length (heap σ)) Q m → heap σ `prefix_of` heap (m σ).1.
Proof.
  intros Hm. destruct (Hm σ) as (Ht & Hl & _); [done|].
  rewrite firstn_all in Ht. rewrite <-Ht. apply prefix_take.
Qed.

(** ** The order on labels is a total order *)

Lemma tuple_leb_total (a b : list string) :
  tuple_leb a b = true ∨ tuple_leb b a = true.
Proof.
  revert b. induction a as [|x a IH]; intros [|y b]; cbn; auto.
  destruct (decide (x = y)) as [->|Hxy].
  - rewrite decide_True by done. apply IH.
  - rewrite decide_False by done. apply String.leb_total.
Qed.

Lemma tuple_leb_antisym (a b : list string) :
  tuple_leb a b = true → tuple_leb b a = true → a = b.
Proof.
  revert b. induction a as [|x a IH]; intros [|y b]; cbn; try done.
  destruct (decide (x = y)) as [->|Hxy].
  - rewrite decide_True by done. intros. f_equal. by apply IH.
  - rewrite decide_False by done. intros H1 H2.
    destruct Hxy. by apply String.leb_antisym.
Qed.

Lemma tuple_leb_trans (a b c : list string) :
  tuple_leb a b = true → tuple_leb b c = true → tuple_leb a c = true.
Proof.
  revert b c. induction a as [|x a IH]; intros [|y b] [|z c]; cbn; try done.
  destruct (decide (x = y)) as [->|Hxy].
  { destruct (decide (y = z)) as [->|Hyz]; [apply IH | done]. }
  destruct (decide (y = z)) as [->|Hyz].
  { rewrite decide_False by done. done. }
  intros Hxy' Hyz'.
  assert (String.le x z) as Hxz.
  { trans y; unfold String.le; by apply Is_true_true. }
  destruct (decide (x = z)) as [->|Hxz'].
  - destruct Hxy. by apply String.leb_antisym.
  - by apply Is_true_true.
Qed.

#[global] Instance label_le_total : Total label_le.
Proof.
  intros [x|x] [y|y]; unfold label_le; cbn; auto.
  - apply String.leb_total.
  - apply tuple_leb_total.
Qed.

#[global] Instance label_le_antisym : AntiSymm (=) label_le.
Proof.
  intros [x|x] [y|y]; unfold label_le; cbn; try done; intros H1 H2; f_equal.
  - by apply String.leb_antisym.
  - by apply tuple_leb_antisym.
Qed.

#[global] Instance label_le_trans : Transitive label_le.
Proof.
  intros [x|x] [y|y] [z|z]; unfold label_le; cbn; try done.
  - intros H1 H2. apply Is_true_true.
    change (String.le x z). trans y; unfold String.le; by apply Is_true_true.
  - apply tuple_leb_trans.
Qed.


Lemma elem_of_join_index (l r : list label) (k : label) :
  k ∈ join_index l r ↔ k ∈ l ∨ k ∈ r.
Proof.
  unfold join_index.
  by rewrite merge_sort_Permutation, elem_of_remove_dups, elem_of_app.
Qed.

(** ** [computeAll] *)

Lemma alloc_run (df : DataFrame) (σ : state) :
  alloc df σ = ({| heap := heap σ ++ [df]; stdout := stdout σ |}, inr (length (heap σ))).
Proof. reflexivity. Qed.

Lemma write_run (r : ref) (df : DataFrame) (σ : state) :
  write r df σ = ({| heap := <[r := df]> (heap σ); stdout := stdout σ |}, inr ()).
Proof. reflexivity. Qed.

Lemma ret_run {A : Type} (a : A) (σ : state) : (mret a : M A) σ = (σ, inr a).
Proof. reflexivity. Qed.

Lemma lift_run {A : Type} (r : exn + A) (σ : state) : lift r σ = (σ, r).
Proof. reflexivity. Qed.

Lemma computeAll_step_run `{Hierarchy, Argsort} (r : ref) (df f : DataFrame)
    (acc : list (string * ref)) (i : nat) (lvl : string) (σ : state) :
  heap σ !! r = Some df →
  level_histogram df (take (S i) TAXONOMY_HIERARCHY) = inr f →
  computeAll_step r acc (i, lvl) σ =
    ({| heap := heap σ ++ [f]; stdout := stdout σ |},
     inr (dict_set lvl (length (heap σ)) acc)).
Proof.
  intros Hr Hf. unfold level_histogram in Hf. unfold computeAll_step.
  rewrite bind_run, (read_run _ _ _ Hr), bind_run, lift_run.
  destruct (groupby_size _ _) as [e|size]; [done|].
  rewrite bind_run, lift_run.
  destruct (sort _ _) as [e|sorted]; [done|].
  rewrite bind_run, alloc_run.
  set (σ1 := {| heap := heap σ ++ [sorted]; stdout := stdout σ |}).
  assert (heap σ1 !! length (heap σ) = Some sorted) as Hh.
  { apply list_lookup_middle. done. }
  rewrite bind_run, (read_run _ _ _ Hh), bind_run, (read_run _ _ _ Hh).
  rewrite bind_run, lift_run, Hf, bind_run, write_run, ret_run.
  unfold σ1. cbn [heap stdout]. do 2 f_equal.
  rewrite insert_app_r_alt by done. by rewrite Nat.sub_diag.
Qed.

(** *** Group sizes *)

Lemma count_insert_sum (k : label) (g : list (label * Z)) :
  sumZ (count_insert k g).*2 = (sumZ g.*2 + 1)%Z.
Proof.
  unfold sumZ. induction g as [|[k' n] g IH]; cbn; [done|].
  repeat case_decide; destruct (label_leb k k'); cbn; rewrite ?IH; lia.
Qed.

Lemma group_sizes_snoc (keys : list label) (k : label) :
  group_sizes (keys ++ [k]) = count_insert k (group_sizes keys).
Proof. unfold group_sizes. by rewrite foldl_app. Qed.

Lemma group_sizes_sum (keys : list label) :
  sumZ (group_sizes keys).*2 = Z.of_nat (length keys).
Proof.
  induction keys as [|k keys IH] using rev_ind; [done|].
  rewrite group_sizes_snoc, count_insert_sum, IH, length_app. cbn. lia.
Qed.

(** *** Taking rows along a permutation of the positions *)

Lemma lookup_total_seq {A : Type} `{Inhabited A} (l : list A) :
  (λ i, l !!! i) <$> seq 0 (length l) = l.
Proof.
  apply list_eq. intros i. rewrite list_lookup_fmap.
  destruct (decide (i < length l)) as [Hi|Hi].
  - rewrite lookup_seq_lt by done. cbn.
    destruct (lookup_lt_is_Some_2 l i Hi) as [x Hx].
    by rewrite (list_lookup_total_correct _ _ _ Hx).
  - rewrite lookup_seq_ge by lia. cbn. symmetry. apply lookup_ge_None. lia.
Qed.

Lemma take_along_Permutation {A : Type} `{Inhabited A} (l : list A) (p : list nat) :
  p ≡ₚ seq 0 (length l) → (λ i, l !!! i) <$> p ≡ₚ l.
Proof. intros Hp. rewrite Hp. by rewrite lookup_total_seq. Qed.

Lemma take_along_Int (zs : list Z) (p : list nat) :
  p ≡ₚ seq 0 (length zs) →
  (λ i, (Int <$> zs) !!! i) <$> p = Int <$> ((λ i, zs !!! i) <$> p).
Proof.
  intros Hp. rewrite <-list_fmap_compose. apply Forall_fmap_ext.
  rewrite Hp. apply Forall_forall. intros i Hi%elem_of_seq. cbn.
  destruct (lookup_lt_is_Some_2 zs i) as [z Hz]; [lia|].
  rewrite (list_lookup_total_correct _ _ _ Hz).
  apply list_lookup_total_correct. by rewrite list_lookup_fmap, Hz.
Qed.

Lemma sumZ_Permutation (l1 l2 : list Z) : l1 ≡ₚ l2 → sumZ l1 = sumZ l2.
Proof. unfold sumZ. induction 1; cbn in *; lia. Qed.

(** *** The percent column *)






(** *** The histogram of one level, in closed form *)

Lemma set_column_new (c : label) (v : list cell) (cs : list label)
    (d : list (list cell)) :
  c ∉ cs → length cs = length d → set_column c v cs d = (cs ++ [c], d ++ [v]).
Proof.
  revert d. induction cs as [|c' cs IH]; intros [|v' d] Hc Hl; try done.
  apply not_elem_of_cons in Hc as [Hc Hcs]. cbn.
  rewrite decide_False by done. rewrite IH by (by auto || by simplify_eq/=).
  done.
Qed.

Lemma setitem_new (df value : DataFrame) (c : label) (v : list cell) :
  data value = [v] → labels (index value) = labels (index df) →
  c ∉ labels (columns df) → length (labels (columns df)) = length (data df) →
  setitem df c value =
    inr {| index := index df;
           columns := {| labels := labels (columns df) ++ [c];
                         names := names (columns df) |};
           data := data df ++ [v];
           attrs := attrs df |}.
Proof.
  intros Hv Hi Hc Hl. unfold setitem. rewrite Hv, decide_True by done.
  by rewrite set_column_new.
Qed.

Lemma level_histogram_eq `{Argsort} (df : DataFrame) (keys : list string) :
  is_Some (mapM (λ c, column df (Scalar c)) keys) →
  level_histogram df keys = inr (histogram_frame df keys).
Proof.
  intros [cols Hcols].
  unfold level_histogram, histogram_frame, sorted_positions, groups, classified,
    groupby_size.
  rewrite Hcols. unfold sort, DataFrame_of_series, column.
  cbn [columns labels data zip zip_with assoc s_values s_index].
  rewrite decide_True by done.
  erewrite setitem_new; [done..| |done].
  cbn. by intros [[=]|[]%elem_of_nil]%elem_of_cons.
Qed.

(** *** The loop *)

Lemma assoc_dict_set {V : Type} (k k' : string) (v : V) (d : list (string * V)) :
  assoc k (dict_set k' v d) = if decide (k = k') then Some v else assoc k d.
Proof.
  induction d as [|[k'' v''] d IH]; cbn.
  - done.
  - destruct (decide (k' = k'')) as [->|Hne]; cbn.
    + by repeat case_decide.
    + rewrite IH. repeat case_decide; by simplify_eq.
Qed.

Lemma computeAll_dict_notin (base : nat) (acc : list (string * ref))
    (its : list (nat * string)) (lvl : string) :
  lvl ∉ its.*2 → assoc lvl (computeAll_dict base acc its) = assoc lvl acc.
Proof.
  revert base acc. induction its as [|[i l] its IH]; intros base acc Hl; cbn; [done|].
  cbn in Hl. apply not_elem_of_cons in Hl as [Hne Hl].
  rewrite IH by done. rewrite assoc_dict_set. by rewrite decide_False.
Qed.

Lemma computeAll_dict_lookup (base : nat) (acc : list (string * ref))
    (its : list (nat * string)) (j i : nat) (lvl : string) :
  NoDup its.*2 → its !! j = Some (i, lvl) →
  assoc lvl (computeAll_dict base acc its) = Some (base + j).
Proof.
  revert base acc j. induction its as [|[i' l] its IH]; intros base acc j Hnd Hj; [done|].
  cbn in Hnd. apply NoDup_cons in Hnd as [Hl Hnd]. destruct j as [|j]; cbn in *.
  - simplify_eq. rewrite computeAll_dict_notin by done.
    rewrite assoc_dict_set, decide_True by done. f_equal. lia.
  - rewrite (IH _ _ j) by done. f_equal. lia.
Qed.

Lemma computeAll_loop_run `{Hierarchy, Argsort} (r : ref) (df : DataFrame)
    (its : list (nat * string)) (acc : list (string * ref)) (σ : state) :
  heap σ !! r = Some df →
  Forall (λ it, is_Some (mapM (λ c, column df (Scalar c))
                              (take (S it.1) TAXONOMY_HIERARCHY))) its →
  foldM (computeAll_step r) acc its σ =
    ({| heap := heap σ ++
                ((λ it, histogram_frame df (take (S it.1) TAXONOMY_HIERARCHY)) <$> its);
        stdout := stdout σ |},
     inr (computeAll_dict (length (heap σ)) acc its)).
Proof.
  revert acc σ. induction its as [|[i lvl] its IH]; intros acc σ Hr Hits.
  - cbn. rewrite app_nil_r. by destruct σ.
  - apply Forall_cons in Hits as [Hi Hits]. cbn [foldM].
    rewrite bind_run.
    rewrite (computeAll_step_run r df (histogram_frame df (take (S i) TAXONOMY_HIERARCHY)))
      by (done || by apply level_histogram_eq).
    rewrite IH; [|by apply lookup_app_l_Some|done].
    cbn. rewrite length_app, <-app_assoc. cbn.
    by rewrite Nat.add_1_r.
Qed.

Lemma has_levels_take `{Hierarchy} (df : DataFrame) (i : nat) :
  has_levels df →
  is_Some (mapM (λ c, column df (Scalar c)) (take (S i) TAXONOMY_HIERARCHY)).
Proof. intros Hdf. apply mapM_is_Some. by apply Forall_take. Qed.

(** [computeAll] returns, and what it returns: one new object per level,
    which holds [histogram_frame] of that level. *)
Lemma computeAll_run `{Hierarchy, Argsort} (r : ref) (df : DataFrame) (σ : state) :
  NoDup TAXONOMY_HIERARCHY → heap σ !! r = Some df → has_levels df →
  ∃ σ' hist,
    computeAll r σ = (σ', inr hist) ∧
    stdout σ' = stdout σ ∧
    ∀ i lvl, TAXONOMY_HIERARCHY !! i = Some lvl →
      ∃ h, assoc lvl hist = Some h ∧
           heap σ' !! h = Some (histogram_frame df (take (S i) TAXONOMY_HIERARCHY)).
Proof.
  intros Hnd Hr Hdf. unfold computeAll. eexists _, _.
  rewrite (computeAll_loop_run r df) by
    (done || apply Forall_forall; intros; by apply has_levels_take).
  split; [done|]. split; [done|]. intros i lvl Hi. cbn.
  set (its := zip (seq 0 (length TAXONOMY_HIERARCHY)) TAXONOMY_HIERARCHY).
  assert (its.*2 = TAXONOMY_HIERARCHY) as Hits2.
  { apply snd_zip. by rewrite length_seq. }
  assert (its !! i = Some (i, lvl)) as Hiti.
  { apply lookup_zip_with_Some. exists i, lvl. split_and!; [done| |done].
    apply lookup_seq. split; [done|]. by eapply lookup_lt_Some. }
  exists (length (heap σ) + i). split.
  - apply (computeAll_dict_lookup _ _ _ _ i); [by rewrite Hits2|done].
  - rewrite lookup_app_r by lia.
    replace (length (heap σ) + i - length (heap σ)) with i by lia.
    by rewrite list_lookup_fmap, Hiti.
Qed.

(** *** The histogram of one level under the contract of the sort *)

Section histogram_frame.
Context `{Argsort, !ArgsortContract} (df : DataFrame) (keys : list string).

Lemma sorted_positions_perm :
  sorted_positions df keys ≡ₚ seq 0 (length (groups df keys)).
Proof.
  unfold sorted_positions. rewrite argsort_desc_perm. by rewrite length_fmap.
Qed.

Lemma sorted_counts_perm : sorted_counts df keys ≡ₚ (groups df keys).*2.
Proof.
  apply take_along_Permutation. rewrite length_fmap. apply sorted_positions_perm.
Qed.


Lemma sorted_counts_sum :
  sumZ (sorted_counts df keys) = Z.of_nat (length (classified df keys)).
Proof.
  rewrite (sumZ_Permutation _ _ sorted_counts_perm).
  unfold groups. by rewrite group_sizes_sum, length_fmap.
Qed.

Lemma histogram_frame_count :
  column (histogram_frame df keys) (Scalar "count") = Some (Int <$> sorted_counts df keys).
Proof.
  unfold column. cbn. rewrite decide_True by done. f_equal.
  apply take_along_Int. rewrite length_fmap. apply sorted_positions_perm.
Qed.


Lemma histogram_frame_rows :
  zip (labels (index (histogram_frame df keys))) (sorted_counts df keys)
  ≡ₚ groups df keys.
Proof.
  cbn. unfold sorted_counts.
  rewrite zip_with_fmap_l, zip_with_fmap_r, zip_with_diag.
  rewrite sorted_positions_perm.
  assert ((λ i, ((groups df keys).*1 !!! i, (groups df keys).*2 !!! i))
          <$> seq 0 (length (groups df keys)) = groups df keys) as ->; [|done].
  etrans; [|apply (lookup_total_seq (groups df keys))].
  apply Forall_fmap_ext, Forall_forall.
  intros i Hi%elem_of_seq.
  rewrite (list_lookup_total_fmap fst (groups df keys)) by lia.
  rewrite (list_lookup_total_fmap snd (groups df keys)) by lia.
  by destruct (_ !!! i).
Qed.
End histogram_frame.

(** ** The example sort routine meets the contract *)

#[global] Instance by_count_desc_total : Total by_count_desc.
Proof. intros a b. unfold by_count_desc. lia. Qed.

Lemma cell_int_Int (zs : list Z) : cell_int <$> (Int <$> zs) = zs.
Proof. rewrite <-list_fmap_compose. apply list_fmap_id. Qed.

#[global] Instance by_count_then_position_total : Total by_count_then_position.
Proof. intros a b. unfold by_count_then_position. lia. Qed.

Lemma argsort_by_contract (R : relation (Z * nat)) `{!RelDecision R, !Total R} :
  (∀ a b, R a b → (a.1 >= b.1)%Z) → @ArgsortContract (argsort_by R).
Proof.
  intros HR. split; intros zs; unfold argsort_desc, argsort_by;
    rewrite cell_int_Int, length_fmap.
  - rewrite merge_sort_Permutation. rewrite snd_zip; [done|].
    by rewrite length_seq.
  - set (l := merge_sort R (zip zs (seq 0 (length zs)))).
    assert ((λ i, zs !!! i) <$> l.*2 = l.*1) as ->.
    { rewrite <-list_fmap_compose. apply Forall_fmap_ext, Forall_forall.
      intros [z i] Hzi. cbn. unfold l in Hzi.
      rewrite merge_sort_Permutation in Hzi.
      apply elem_of_lookup_zip_with in Hzi as (j & z' & i' & [= -> ->] & Hz & Hi).
      apply lookup_seq in Hi as [-> _]. by apply list_lookup_total_correct. }
    apply (Sorted_fmap _ R); [done|]. by apply Sorted_merge_sort.
Qed.

Lemma merge_argsort_contract : @ArgsortContract merge_argsort.
Proof.
  apply (argsort_by_contract by_count_desc). unfold by_count_desc. intros a b. lia.
Qed.


(** ** Records without missing values *)

Lemma length_omap_is_Some {A B : Type} (f : A → option B) (l : list A) :
  Forall (λ x, is_Some (f x)) l → length (omap f l) = length l.
Proof.
  induction 1 as [|x l [y Hy] _ IH]; cbn; [done|]. rewrite Hy. cbn. by rewrite IH.
Qed.

Lemma no_missing_columns (df : DataFrame) (keys : list string) :
  no_missing df keys →
  ∃ cols, mapM (λ c, column df (Scalar c)) keys = Some cols ∧
          Forall (λ col, ∃ vs, col = Str <$> vs ∧
                               length vs = length (labels (index df))) cols.
Proof.
  induction 1 as [|c keys (vs & Hc & Hvs) _ (cols & Hcols & IH)]; cbn.
  - by exists [].
  - exists ((Str <$> vs) :: cols). rewrite Hc, Hcols. cbn. split; [done|].
    constructor; [by exists vs|done].
Qed.

Lemma classified_no_missing (df : DataFrame) (keys : list string) :
  no_missing df keys →
  length (classified df keys) = length (labels (index df)).
Proof.
  intros (cols & Hcols & Hstr)%no_missing_columns. unfold classified, key_rows.
  rewrite Hcols, length_omap_is_Some; [by rewrite length_fmap, length_seq|].
  apply Forall_fmap, Forall_forall. intros i Hi%elem_of_seq. cbn.
  apply mapM_is_Some, Forall_fmap, (Forall_impl _ _ _ Hstr).
  intros col (vs & -> & Hvs). cbn.
  rewrite (list_lookup_total_fmap Str vs) by lia. by eexists.
Qed.

(** ** The claims about [computeAll] *)

(** C6, as amended.  [computeAll] returns, and for every level of the
    hierarchy the [count] column of that level's histogram sums to the
    number of records that have a value at each of the levels down to that
    one.  For a table without missing values at these levels this is the
    number of records of the table. *)
Theorem computeAll_count_sum `{Hierarchy, Argsort, !ArgsortContract}
    (r : ref) (df : DataFrame) (σ : state) :
  NoDup TAXONOMY_HIERARCHY → heap σ !! r = Some df → has_levels df →
  ∃ σ' hist,
    computeAll r σ = (σ', inr hist) ∧
    ∀ i lvl, TAXONOMY_HIERARCHY !! i = Some lvl →
      ∃ h f counts,
        assoc lvl hist = Some h ∧ heap σ' !! h = Some f ∧
        column f (Scalar "count") = Some (Int <$> counts) ∧
        sumZ counts
        = Z.of_nat (length (classified df (take (S i) TAXONOMY_HIERARCHY))) ∧
        (no_missing df (take (S i) TAXONOMY_HIERARCHY) →
         sumZ counts = Z.of_nat (length (labels (index df)))).
Proof.
  intros Hnd Hr Hdf.
  destruct (computeAll_run r df σ Hnd Hr Hdf) as (σ' & hist & Hrun & _ & Hlv).
  exists σ', hist. split; [done|]. intros i lvl Hi.
  destruct (Hlv i lvl Hi) as (h & Hh & Hf).
  exists h, (histogram_frame df (take (S i) TAXONOMY_HIERARCHY)),
    (sorted_counts df (take (S i) TAXONOMY_HIERARCHY)).
  split_and!; [done|done|apply histogram_frame_count|apply sorted_counts_sum|].
  intros Hno. by rewrite sorted_counts_sum, classified_no_missing.
Qed.



(** *** The theorems at a concrete table *)

Lemma example_hierarchy_NoDup : NoDup example_hierarchy.
Proof.
  apply NoDup_cons. split; [by intros [=]%list_elem_of_singleton|].
  apply NoDup_singleton.
Qed.

Lemma example_table_has_levels : @has_levels example_hierarchy example_table.
Proof. repeat constructor; by eexists. Qed.

Lemma computeAll_count_sum_witness :
  NoDup example_hierarchy ∧
  heap (state_of [example_table]) !! 0 = Some example_table ∧
  @has_levels example_hierarchy example_table ∧
  ∃ σ' hist,
    @computeAll example_hierarchy merge_argsort 0 (state_of [example_table])
    = (σ', inr hist) ∧
    ∀ i lvl, example_hierarchy !! i = Some lvl →
      ∃ h f counts,
        assoc lvl hist = Some h ∧ heap σ' !! h = Some f ∧
        column f (Scalar "count") = Some (Int <$> counts) ∧
        sumZ counts
        = Z.of_nat (length (classified example_table (take (S i) example_hierarchy))) ∧
        (no_missing example_table (take (S i) example_hierarchy) →
         sumZ counts = Z.of_nat (length (labels (index example_table)))).
Proof.
  split_and!;
    [ exact example_hierarchy_NoDup | reflexivity | exact example_table_has_levels | ].
  exact (@computeAll_count_sum example_hierarchy merge_argsort merge_argsort_contract
           0 example_table (state_of [example_table])
           example_hierarchy_NoDup eq_refl example_table_has_levels).
Defined.

(** C6 as stated does not hold: the table has four records, the [count]
    column sums to four at the first level and to three at the second,
    where one record has no value. *)
Lemma computeAll_count_sum_counterexample :
  ∃ σ' k p,
    @computeAll example_hierarchy merge_argsort 0 (state_of [example_table])
    = (σ', inr [("kingdom", 1); ("phylum", 2)]) ∧
    heap σ' !! 1 = Some k ∧ heap σ' !! 2 = Some p ∧
    length (labels (index example_table)) = 4 ∧
    series_sum <$> column k (Scalar "count") = Some (Int 4) ∧
    series_sum <$> column p (Scalar "count") = Some (Int 3).
Proof. eexists _, _, _. vm_compute. repeat split. Qed.





(** ** Validation and the taxonomy level check *)

(** C4.  [validateSampleDictTaxHistDict] raises [TypeError] for an argument
    that is not a dict, [ValueError] for an empty dict, and returns [None]
    for a dict with at least one entry; it changes nothing in either case. *)
Theorem validateSampleDictTaxHistDict_contract (v : value) (σ : state) :
  validateSampleDictTaxHistDict v σ =
  (σ, match v with
      | VDict [] =>
          inl (ValueError "argument sampleDictTaxHistDict must have at least one entry")
      | VDict (_ :: _) => inr ()
      | _ => inl (TypeError "argument sampleDictTaxHistDict should be a dict")
      end).
Proof.
  destruct v as [| | | |[|entry d]]; reflexivity.
Qed.

(** C5.  For a level name that is not in the hierarchy, [mergeAcrossSamples]
    raises [ValueError] whatever its other arguments are, and the state is
    as it was: no object was created or changed and nothing was printed. *)
Theorem mergeAcrossSamples_unrecognized_level `{Hierarchy}
    (sampleDictTaxHistDict : value) (taxonomyLevel : string) (verbose : bool)
    (σ : state) :
  taxonomyLevel ∉ TAXONOMY_HIERARCHY →
  mergeAcrossSamples sampleDictTaxHistDict taxonomyLevel verbose σ =
  (σ, inl (ValueError ("taxonomy level " +:+ taxonomyLevel +:+ " is not recognized"))).
Proof. intros Hl. unfold mergeAcrossSamples. by rewrite decide_False. Qed.

Lemma mergeAcrossSamples_unrecognized_level_witness :
  ("genus" ∉ example_hierarchy) ∧
  (@mergeAcrossSamples example_hierarchy
     (VDict [("s1", VDict [("kingdom", VFrame 0)])]) "genus" true
     (state_of [example_table])
   = (state_of [example_table],
      inl (ValueError "taxonomy level genus is not recognized"))).
Proof.
  assert ("genus" ∉ example_hierarchy) as Hl.
  { unfold example_hierarchy. rewrite !not_elem_of_cons. split_and!; try done.
    apply not_elem_of_nil. }
  split; [exact Hl|].
  exact (@mergeAcrossSamples_unrecognized_level example_hierarchy _ "genus" true _ Hl).
Defined.

(** ** No object of the caller is changed *)

(** C9.  Whatever [computeAll], [mergeAcrossSamples] and
    [mergeAcrossSamplesTaxLevels] do, and also when they raise, the heap
    after the call starts with the heap before it: every table that existed
    before the call, those of the sample and histogram collections among
    them, is as it was, columns included.  The in-place [rename] changes an
    object the call itself created. *)
Theorem callers_tables_unchanged `{Hierarchy, Argsort} (σ : state) :
  (∀ phylodistDataFrame,
     heap σ `prefix_of` heap (computeAll phylodistDataFrame σ).1) ∧
  (∀ sampleDictTaxHistDict taxonomyLevel verbose,
     heap σ `prefix_of`
       heap (mergeAcrossSamples sampleDictTaxHistDict taxonomyLevel verbose σ).1) ∧
  (∀ sampleDictTaxHistDict metadata,
     heap σ `prefix_of`
       heap (mergeAcrossSamplesTaxLevels sampleDictTaxHistDict metadata σ).1).
Proof.
  split_and!; intros.
  - eapply preserves_prefix, preserves_computeAll.
  - eapply preserves_prefix, preserves_mergeAcrossSamples.
  - eapply preserves_prefix, preserves_mergeAcrossSamplesTaxLevels.
Qed.

(** ** [mergeAcrossSamples] *)

Lemma getitem_run (d : list (string * value)) (k : string) (v : value) (σ : state) :
  assoc k d = Some v → getitem (VDict d) k σ = (σ, inr v).
Proof. intros Hk. cbn. by rewrite Hk. Qed.

Lemma validate_run (entry : string * value) (d : list (string * value)) (σ : state) :
  validateSampleDictTaxHistDict (VDict (entry :: d)) σ = (σ, inr ()).
Proof. reflexivity. Qed.

Lemma drop_count (h : DataFrame) :
  is_histogram h →
  drop (Scalar "count") h =
    inr {| index := index h;
           columns := {| labels := [Scalar "percent"]; names := names (columns h) |};
           data := [percent_cells h];
           attrs := [] |}.
Proof.
  intros (counts & percent & Hc & Hd & _). unfold drop, percent_cells, column.
  rewrite Hc, Hd. rewrite decide_True by (by left). done.
Qed.

(** The histograms [computeAll] builds are level histograms. *)
Lemma histogram_frame_is_histogram `{Argsort} (df : DataFrame) (keys : list string) :
  is_histogram (histogram_frame df keys).
Proof.
  eexists _, _. split_and!; [done..|]. unfold percent_of. cbn.
  by rewrite !length_fmap.
Qed.

Lemma level_frame_prefix (σ0 σ : state) (v : value) (lvl : string) (h : DataFrame) :
  heap σ0 `prefix_of` heap σ → level_frame σ0 v lvl = Some h →
  ∃ hists r, v = VDict hists ∧ assoc lvl hists = Some (VFrame r) ∧
             heap σ !! r = Some h.
Proof.
  intros Hp Hv. destruct v as [| | | |hists]; try done. cbn in Hv.
  destruct (assoc lvl hists) as [[| | |r|]|] eqn:Hl; try done.
  exists hists, r. split_and!; [done..|]. by eapply prefix_lookup_Some.
Qed.

Lemma rename_percent (sample : string) (h : DataFrame) :
  rename (Scalar "percent") (Scalar sample) (sample_frame "percent" h)
  = sample_frame sample h.
Proof. unfold rename, sample_frame. cbn. by rewrite decide_True. Qed.

(** The first turn of the loop. *)
Lemma mergeAcrossSamples_step_first (σ0 σ : state) (entries : list (string * value))
    (lvl sample : string) (v : value) (h : DataFrame) (merged : option ref) :
  heap σ0 `prefix_of` heap σ → assoc sample entries = Some v →
  level_frame σ0 v lvl = Some h → is_histogram h →
  ∃ σ',
    mergeAcrossSamples_step (VDict entries) lvl (true, merged) sample σ
    = (σ', inr (false, Some (S (length (heap σ))))) ∧
    heap σ' = heap σ ++ [sample_frame "percent" h; sample_frame sample h] ∧
    stdout σ' = stdout σ.
Proof.
  intros Hp He Hv Hh.
  destruct (level_frame_prefix σ0 σ v lvl h Hp Hv) as (hists & r & -> & Hl & Hr).
  eexists. unfold mergeAcrossSamples_step.
  rewrite bind_run, (getitem_run _ _ _ _ He).
  rewrite bind_run, (getitem_run _ _ _ _ Hl).
  rewrite bind_run. cbn [as_frame]. rewrite ret_run.
  rewrite bind_run, (read_run _ _ _ Hr).
  rewrite bind_run, lift_run, (drop_count h Hh).
  fold (sample_frame "percent" h).
  rewrite bind_run, alloc_run.
  erewrite bind_run, read_run by (by apply list_lookup_middle).
  rewrite bind_run, alloc_run, ret_run, rename_percent. cbn [heap stdout].
  rewrite length_app, Nat.add_1_r.
  split; [reflexivity|]. cbn [heap stdout]. by rewrite <-app_assoc.
Qed.

(** A later turn of the loop. *)
Lemma mergeAcrossSamples_step_next (σ0 σ : state) (entries : list (string * value))
    (lvl sample : string) (v : value) (h acc : DataFrame) (merged : ref) :
  heap σ0 `prefix_of` heap σ → assoc sample entries = Some v →
  level_frame σ0 v lvl = Some h → is_histogram h →
  heap σ !! merged = Some acc →
  ∃ σ',
    mergeAcrossSamples_step (VDict entries) lvl (false, Some merged) sample σ
    = (σ', inr (false, Some (S (length (heap σ))))) ∧
    heap σ' = heap σ ++ [sample_frame sample h; merge_outer acc (sample_frame sample h)] ∧
    stdout σ' = stdout σ.
Proof.
  intros Hp He Hv Hh Hm.
  destruct (level_frame_prefix σ0 σ v lvl h Hp Hv) as (hists & r & -> & Hl & Hr).
  eexists. unfold mergeAcrossSamples_step.
  rewrite bind_run, (getitem_run _ _ _ _ He).
  rewrite bind_run, (getitem_run _ _ _ _ Hl).
  rewrite bind_run. cbn [as_frame]. rewrite ret_run.
  rewrite bind_run, (read_run _ _ _ Hr).
  rewrite bind_run, lift_run, (drop_count h Hh).
  fold (sample_frame "percent" h).
  rewrite bind_run, alloc_run.
  erewrite bind_run, read_run by (by apply list_lookup_middle).
  rewrite bind_run, write_run, rename_percent. cbn [heap stdout].
  rewrite insert_app_r_alt, Nat.sub_diag by done. cbn [insert list_insert].
  erewrite bind_run, read_run by (by apply lookup_app_l_Some).
  erewrite bind_run, read_run by (by apply list_lookup_middle).
  rewrite bind_run, alloc_run, ret_run. cbn [heap stdout].
  rewrite length_app, Nat.add_1_r.
  split; [reflexivity|]. cbn [heap stdout]. by rewrite <-app_assoc.
Qed.

Lemma mergeAcrossSamples_loop (σ0 : state) (entries : list (string * value))
    (lvl : string) (l : list (string * DataFrame)) (σ : state) (m : ref)
    (acc : DataFrame) :
  Forall (sample_of σ0 entries lvl) l →
  heap σ0 `prefix_of` heap σ → heap σ !! m = Some acc →
  ∃ σ' m',
    foldM (mergeAcrossSamples_step (VDict entries) lvl) (false, Some m) l.*1 σ
    = (σ', inr (false, Some m')) ∧
    heap σ' !! m' = Some (merge_frames acc l) ∧
    heap σ `prefix_of` heap σ' ∧
    stdout σ' = stdout σ.
Proof.
  intros Hl. revert σ m acc.
  induction Hl as [|[sample h] l (v & He & Hv & Hh) _ IH]; intros σ m acc Hp Hm.
  - by exists σ, m.
  - change (((sample, h) :: l).*1) with (sample :: l.*1).
    cbn [foldM]. cbn in He, Hv, Hh.
    destruct (mergeAcrossSamples_step_next σ0 σ entries lvl sample v h acc m)
      as (σ1 & Hrun & Hheap & Hout); [done..|].
    rewrite bind_run, Hrun.
    destruct (IH σ1 (S (length (heap σ))) (merge_outer acc (sample_frame sample h)))
      as (σ' & m' & Hrun' & Hm' & Hp' & Hout').
    { rewrite Hheap. by apply prefix_app_r. }
    { rewrite Hheap. rewrite lookup_app_r by lia.
      by replace (S (length (heap σ)) - length (heap σ)) with 1 by lia. }
    exists σ', m'. split_and!; [done|done| |congruence].
    etrans; [|done]. rewrite Hheap. by apply prefix_app_r.
Qed.

Lemma assoc_NoDup {V : Type} (l : list (string * V)) (k : string) (v : V) :
  NoDup l.*1 → (k, v) ∈ l → assoc k l = Some v.
Proof.
  induction l as [|[k' v'] l IH]; cbn; intros Hnd Hin; [by apply elem_of_nil in Hin|].
  apply NoDup_cons in Hnd as [Hk Hnd].
  apply elem_of_cons in Hin as [[= -> ->]|Hin]; [by rewrite decide_True|].
  rewrite decide_False; [by apply IH|].
  intros ->. apply Hk. apply list_elem_of_fmap. by exists (k', v).
Qed.

Lemma valid_collection_samples (σ : state) (entries : list (string * value))
    (lvl : string) (hs : list DataFrame) :
  valid_collection σ entries lvl hs →
  Forall (sample_of σ entries lvl) (zip entries.*1 hs).
Proof.
  intros [Hnd Hall]. apply Forall_forall. intros [sample h] Hin.
  apply elem_of_lookup_zip_with in Hin as (i & s & h' & [= <- <-] & Hs & Hh').
  apply list_lookup_fmap_Some in Hs as ([s' v] & -> & He).
  destruct (Forall2_lookup_lr _ _ _ _ _ _ Hall He Hh') as [Hv Hh].
  exists v. split_and!; [|done..].
  apply assoc_NoDup; [done|]. by eapply list_elem_of_lookup_2.
Qed.

(** [mergeAcrossSamples] returns for a valid collection, and what it
    returns: a new object that holds [merged_frame] of the samples. *)
Lemma mergeAcrossSamples_run `{Hierarchy} (σ : state) (entries : list (string * value))
    (lvl : string) (verbose : bool) (hs : list DataFrame) :
  lvl ∈ TAXONOMY_HIERARCHY → entries ≠ [] → valid_collection σ entries lvl hs →
  ∃ σ' m f,
    mergeAcrossSamples (VDict entries) lvl verbose σ = (σ', inr m) ∧
    heap σ' !! m = Some f ∧
    merged_frame (zip entries.*1 hs) = Some f ∧
    heap σ `prefix_of` heap σ' ∧
    stdout σ' = stdout σ ++ merge_messages lvl verbose.
Proof.
  intros Hlvl Hne Hvalid.
  pose proof (valid_collection_samples _ _ _ _ Hvalid) as Hs.
  destruct Hvalid as [Hnd Hall].
  destruct Hall as [|[sample v] h entries hs [Hv Hh] Hall]; [done|].
  change (((sample, v) :: entries).*1) with (sample :: entries.*1) in Hs.
  cbn [zip zip_with] in Hs.
  apply Forall_cons in Hs as [_ Hs]. cbn in Hv, Hh.
  unfold mergeAcrossSamples. rewrite decide_True by done.
  rewrite bind_run, validate_run.
  set (σ1 := {| heap := heap σ;
                stdout := stdout σ ++ (if verbose then
                  ["merging across samples for " +:+ lvl +:+ " ... "] else []) |}).
  assert ((if verbose then
             stdout_write ("merging across samples for " +:+ lvl +:+ " ... ")
           else mret ()) σ = (σ1, inr ())) as Hw.
  { destruct verbose; [done|]. rewrite ret_run. unfold σ1.
    rewrite app_nil_r. by destruct σ. }
  rewrite bind_run, Hw. cbn [dict_keys].
  change (((sample, v) :: entries).*1) with (sample :: entries.*1).
  cbn [foldM].
  assert (assoc sample ((sample, v) :: entries) = Some v) as He'.
  { cbn. by rewrite decide_True. }
  destruct (mergeAcrossSamples_step_first σ σ1 ((sample, v) :: entries) lvl sample
              v h None) as (σ2 & Hrun & Hheap & Hout); [done..|].
  rewrite !bind_run, Hrun.
  destruct (mergeAcrossSamples_loop σ ((sample, v) :: entries) lvl (zip entries.*1 hs)
              σ2 (S (length (heap σ1))) (sample_frame sample h))
    as (σ3 & m & Hrun' & Hm & Hp & Hout').
  { done. }
  { rewrite Hheap. by apply prefix_app_r. }
  { rewrite Hheap. rewrite lookup_app_r by lia.
    by replace (S (length (heap σ1)) - length (heap σ1)) with 1 by lia. }
  assert ((zip entries.*1 hs).*1 = entries.*1) as Hfst.
  { apply fst_zip. rewrite length_fmap. by erewrite Forall2_length. }
  rewrite Hfst in Hrun'. rewrite Hrun'.
  exists (if verbose then {| heap := heap σ3; stdout := stdout σ3 ++ ["done"] |} else σ3),
    m, (merge_frames (sample_frame sample h) (zip entries.*1 hs)).
  split_and!.
  - by destruct verbose.
  - by destruct verbose.
  - done.
  - trans (heap σ3); [|by destruct verbose].
    etrans; [|done]. rewrite Hheap. by apply prefix_app_r.
  - unfold merge_messages.
    destruct verbose; cbn [stdout]; rewrite Hout', Hout; unfold σ1; cbn [stdout].
    + by rewrite <-app_assoc.
    + done.
Qed.

(** ** The merged table, as a value *)

Lemma assoc_zip_None {K V : Type} `{EqDecision K} (k : K) (ks : list K) (vs : list V) :
  k ∉ ks → assoc k (zip ks vs) = None.
Proof.
  revert vs. induction ks as [|k' ks IH]; intros [|v vs] Hk; cbn; try done.
  apply not_elem_of_cons in Hk as [Hne Hk]. rewrite decide_False by done. auto.
Qed.

Lemma assoc_zip_is_Some {K V : Type} `{EqDecision K} (k : K) (ks : list K)
    (vs : list V) :
  length ks ≤ length vs → k ∈ ks → is_Some (assoc k (zip ks vs)).
Proof.
  revert vs. induction ks as [|k' ks IH]; intros [|v vs] Hl Hk; cbn in *;
    try (by apply elem_of_nil in Hk); try lia.
  destruct (decide (k = k')) as [->|Hne]; [by eexists|].
  apply IH; [lia|]. by apply elem_of_cons in Hk as [?|?].
Qed.

Lemma assoc_zip_fmap {K V : Type} `{EqDecision K} (k : K) (ks : list K) (g : K → V) :
  assoc k (zip ks (g <$> ks)) = if decide (k ∈ ks) then Some (g k) else None.
Proof.
  induction ks as [|k' ks IH]; cbn.
  - by rewrite decide_False by apply not_elem_of_nil.
  - destruct (decide (k = k')) as [->|Hne].
    + by rewrite decide_True by left.
    + rewrite IH. destruct (decide (k ∈ ks)).
      * by rewrite decide_True by (by right).
      * rewrite decide_False; [done|]. by intros [?|?]%elem_of_cons.
Qed.

Lemma sample_cell_notin (h : DataFrame) (k : label) :
  k ∉ labels (index h) → sample_cell h k = NaN.
Proof. intros Hk. unfold sample_cell. by rewrite assoc_zip_None. Qed.

Lemma percent_cells_histogram (h : DataFrame) :
  is_histogram h → length (percent_cells h) = length (labels (index h)).
Proof.
  intros (counts & percent & Hc & Hd & Hl). unfold percent_cells, column.
  rewrite Hc, Hd. cbn. rewrite decide_False by done. by rewrite decide_True.
Qed.

Lemma merged_of_sample_frame (sample : string) (h : DataFrame) :
  is_histogram h → merged_of (sample_frame sample h) [(sample, h)].
Proof.
  intros Hh. split_and!; cbn.
  - done.
  - constructor; [|constructor]. intros k. cbn. unfold sample_cell.
    destruct (decide (k ∈ labels (index h))) as [Hk|Hk].
    + destruct (assoc_zip_is_Some k (labels (index h)) (percent_cells h))
        as [c Hc]; [by rewrite percent_cells_histogram|done|].
      by rewrite Hc.
    + by apply assoc_zip_None.
  - intros k. split.
    + intros Hk. exists (sample, h). split; [by left|done].
    + by intros ([s' h'] & [= -> ->]%list_elem_of_singleton & Hk).
Qed.

Lemma merged_of_merge_outer (f : DataFrame) (l : list (string * DataFrame))
    (sample : string) (h : DataFrame) :
  merged_of f l →
  merged_of (merge_outer f (sample_frame sample h)) (l ++ [(sample, h)]).
Proof.
  intros (Hcols & Hdata & Hrows). split_and!; cbn.
  - by rewrite Hcols, !fmap_app.
  - apply Forall2_app.
    + apply Forall2_fmap_l, Forall2_same_length_lookup.
      split; [by eapply Forall2_length|]. intros i col p Hi Hp k.
      pose proof (Forall2_lookup_lr _ _ _ _ _ _ Hdata Hi Hp) as Hcol.
      cbn. unfold reindex. rewrite assoc_zip_fmap.
      case_decide; [|done]. f_equal. rewrite Hcol.
      case_decide as Hk; [done|]. cbn. symmetry. apply sample_cell_notin.
      intros Hin. apply Hk, Hrows. exists p. split; [|done].
      by eapply list_elem_of_lookup_2.
    + constructor; [|constructor]. intros k. cbn. unfold reindex.
      by rewrite assoc_zip_fmap.
  - intros k. rewrite elem_of_join_index, Hrows. split.
    + intros [(p & Hp & Hk)|Hk].
      * exists p. split; [|done]. apply elem_of_app. by left.
      * exists (sample, h). split; [|done]. apply elem_of_app. right. by left.
    + intros (p & [Hp|Hp%list_elem_of_singleton]%elem_of_app & Hk).
      * left. by exists p.
      * right. by subst p.
Qed.

Lemma merged_of_merge_frames (acc : DataFrame) (l0 l : list (string * DataFrame)) :
  merged_of acc l0 → merged_of (merge_frames acc l) (l0 ++ l).
Proof.
  revert acc l0. induction l as [|[sample h] l IH]; intros acc l0 Hacc; cbn.
  - by rewrite app_nil_r.
  - rewrite (cons_middle _ l0 l), app_assoc. by apply IH, merged_of_merge_outer.
Qed.

Lemma merged_frame_merged_of (l : list (string * DataFrame)) (f : DataFrame) :
  Forall (λ p, is_histogram p.2) l → merged_frame l = Some f → merged_of f l.
Proof.
  destruct l as [|[sample h] l]; [done|]. intros [Hh _]%Forall_cons [= <-].
  by apply (merged_of_merge_frames _ [(sample, h)]), merged_of_sample_frame.
Qed.

Lemma assoc_Forall2 {V : Type} (P : V → string * DataFrame → Prop) (vs : list V)
    (l : list (string * DataFrame)) (sample : string) (h : DataFrame) :
  Forall2 P vs l → NoDup l.*1 → (sample, h) ∈ l →
  ∃ v, assoc (Scalar sample) (zip (Scalar <$> l.*1) vs) = Some v ∧ P v (sample, h).
Proof.
  induction 1 as [|v [s' h'] vs l Hv _ IH]; intros Hnd Hin;
    [by apply elem_of_nil in Hin|].
  cbn in Hnd. apply NoDup_cons in Hnd as [Hs Hnd]. cbn.
  apply elem_of_cons in Hin as [[= -> ->]|Hin].
  - exists v. by rewrite decide_True.
  - rewrite decide_False; [by apply IH|].
    intros [= ->]. apply Hs, list_elem_of_fmap. by exists (s', h).
Qed.

(** A cell of the merged table. *)
Lemma merged_of_loc (f : DataFrame) (l : list (string * DataFrame))
    (sample : string) (h : DataFrame) (k : label) :
  merged_of f l → NoDup l.*1 → (sample, h) ∈ l →
  loc f k (Scalar sample)
  = if decide (k ∈ labels (index f)) then Some (sample_cell h k) else None.
Proof.
  intros (Hcols & Hdata & _) Hnd Hin. unfold loc, column. rewrite Hcols.
  destruct (assoc_Forall2 _ _ _ _ _ Hdata Hnd Hin) as (col & -> & Hcol).
  cbn. apply Hcol.
Qed.

Lemma loc_percent (h : DataFrame) (k : label) :
  is_histogram h → k ∈ labels (index h) →
  loc h k (Scalar "percent") = Some (sample_cell h k).
Proof.
  intros Hh Hk. pose proof (percent_cells_histogram h Hh) as Hlen.
  destruct Hh as (counts & percent & Hc & Hd & Hl).
  unfold sample_cell, percent_cells, loc, column in *. rewrite Hc, Hd in *. cbn in *.
  rewrite decide_False in * by done. rewrite decide_True in * by done. cbn in *.
  destruct (assoc_zip_is_Some k (labels (index h)) percent) as [c ->]; [lia|done|done].
Qed.

(** ** The claims about [mergeAcrossSamples] *)

Lemma valid_collection_length (σ : state) (entries : list (string * value))
    (lvl : string) (hs : list DataFrame) :
  valid_collection σ entries lvl hs → length entries.*1 = length hs.
Proof. intros [_ Hall]. rewrite length_fmap. by eapply Forall2_length. Qed.

(** [mergeAcrossSamples] on a valid collection: the table it returns is
    [merged_of] the samples in iteration order. *)
Lemma mergeAcrossSamples_merged_of `{Hierarchy} (σ : state)
    (entries : list (string * value)) (lvl : string) (verbose : bool)
    (hs : list DataFrame) :
  lvl ∈ TAXONOMY_HIERARCHY → entries ≠ [] → valid_collection σ entries lvl hs →
  ∃ σ' m f,
    mergeAcrossSamples (VDict entries) lvl verbose σ = (σ', inr m) ∧
    heap σ' !! m = Some f ∧
    merged_frame (zip entries.*1 hs) = Some f ∧
    merged_of f (zip entries.*1 hs).
Proof.
  intros Hlvl Hne Hvalid.
  destruct (mergeAcrossSamples_run σ entries lvl verbose hs Hlvl Hne Hvalid)
    as (σ' & m & f & Hrun & Hm & Hf & _).
  exists σ', m, f. split_and!; [done..|].
  apply merged_frame_merged_of; [|done].
  eapply Forall_impl; [by apply valid_collection_samples|].
  by intros p (v & _ & _ & Hp).
Qed.

(** C2.  For a valid collection and a level of the hierarchy,
    [mergeAcrossSamples] returns a table with one column per sample, in
    iteration order; its rows are the labels that occur in the histogram of
    some sample; the cell of a sample at a row is the sample's [percent]
    there, and [NaN] when the sample has no such row. *)
Theorem mergeAcrossSamples_outer_join `{Hierarchy} (σ : state)
    (entries : list (string * value)) (lvl : string) (verbose : bool)
    (hs : list DataFrame) :
  lvl ∈ TAXONOMY_HIERARCHY → entries ≠ [] → valid_collection σ entries lvl hs →
  ∃ σ' m f,
    mergeAcrossSamples (VDict entries) lvl verbose σ = (σ', inr m) ∧
    heap σ' !! m = Some f ∧
    labels (columns f) = Scalar <$> entries.*1 ∧
    (∀ k, k ∈ labels (index f) ↔ ∃ h, h ∈ hs ∧ k ∈ labels (index h)) ∧
    (∀ i sample h k,
       entries.*1 !! i = Some sample → hs !! i = Some h →
       k ∈ labels (index f) →
       (k ∈ labels (index h) →
        loc f k (Scalar sample) = loc h k (Scalar "percent")) ∧
       (k ∉ labels (index h) → loc f k (Scalar sample) = Some NaN)).
Proof.
  intros Hlvl Hne Hvalid.
  destruct (mergeAcrossSamples_merged_of σ entries lvl verbose hs Hlvl Hne Hvalid)
    as (σ' & m & f & Hrun & Hm & _ & Hf).
  pose proof (valid_collection_length _ _ _ _ Hvalid) as Hlen.
  pose proof (valid_collection_samples _ _ _ _ Hvalid) as Hs.
  assert ((zip entries.*1 hs).*1 = entries.*1) as Hfst by (apply fst_zip; lia).
  assert ((zip entries.*1 hs).*2 = hs) as Hsnd by (apply snd_zip; lia).
  exists σ', m, f. split_and!; [done|done| | |].
  - destruct Hf as (-> & _). by rewrite Hfst.
  - intros k. destruct Hf as (_ & _ & ->). split.
    + intros ([s h] & Hp & Hk). exists h. split; [|done].
      rewrite <-Hsnd. apply list_elem_of_fmap. by exists (s, h).
    + intros (h & Hh & Hk). rewrite <-Hsnd in Hh.
      apply list_elem_of_fmap in Hh as (p & -> & Hp). by exists p.
  - intros i sample h k Hi Hh Hk.
    assert ((sample, h) ∈ zip entries.*1 hs) as Hin.
    { by eapply (elem_of_lookup_zip_with_2 pair). }
    rewrite (merged_of_loc f _ sample h k Hf) by (by rewrite ?Hfst; destruct Hvalid).
    rewrite decide_True by done. split.
    + intros Hkh. symmetry. apply loc_percent; [|done].
      rewrite Forall_forall in Hs. by destruct (Hs _ Hin) as (v & _ & _ & ?).
    + intros Hkh. by rewrite sample_cell_notin.
Qed.

Lemma example_collection_valid :
  valid_collection (state_of [histogram_s1; histogram_s2]) example_collection
    "kingdom" [histogram_s1; histogram_s2].
Proof.
  split.
  - cbn. apply NoDup_cons. split; [by intros [=]%list_elem_of_singleton|].
    apply NoDup_singleton.
  - repeat constructor; by eexists _, _.
Qed.

Lemma kingdom_in_example_hierarchy : "kingdom" ∈ example_hierarchy.
Proof. by left. Qed.

Lemma mergeAcrossSamples_outer_join_witness :
  ("kingdom" ∈ example_hierarchy) ∧
  example_collection ≠ [] ∧
  valid_collection (state_of [histogram_s1; histogram_s2]) example_collection
    "kingdom" [histogram_s1; histogram_s2] ∧
  ∃ σ' m f,
    @mergeAcrossSamples example_hierarchy (VDict example_collection) "kingdom" true
      (state_of [histogram_s1; histogram_s2]) = (σ', inr m) ∧
    heap σ' !! m = Some f ∧
    labels (columns f) = Scalar <$> example_collection.*1 ∧
    (∀ k, k ∈ labels (index f) ↔
          ∃ h, h ∈ [histogram_s1; histogram_s2] ∧ k ∈ labels (index h)) ∧
    (∀ i sample h k,
       example_collection.*1 !! i = Some sample →
       [histogram_s1; histogram_s2] !! i = Some h →
       k ∈ labels (index f) →
       (k ∈ labels (index h) →
        loc f k (Scalar sample) = loc h k (Scalar "percent")) ∧
       (k ∉ labels (index h) → loc f k (Scalar sample) = Some NaN)).
Proof.
  assert (example_collection ≠ []) as Hne by done.
  split_and!;
    [ exact kingdom_in_example_hierarchy | exact Hne | exact example_collection_valid | ].
  exact (@mergeAcrossSamples_outer_join example_hierarchy _ example_collection
           "kingdom" true _ kingdom_in_example_hierarchy Hne example_collection_valid).
Defined.

(** The example of the specification: categories A, B with 60, 40 percent
    merged with categories A, C with 70, 30 percent give the rows A, B, C
    with the cells (60, 70), (40, NaN) and (NaN, 30). *)
Lemma mergeAcrossSamples_example :
  ∃ σ',
    @mergeAcrossSamples example_hierarchy (VDict example_collection) "kingdom" true
      (state_of [histogram_s1; histogram_s2]) = (σ', inr 5) ∧
    heap σ' !! 5 =
      Some {| index := {| labels := [Scalar "A"; Scalar "B"; Scalar "C"];
                          names := [Some "kingdom"] |};
              columns := flat_index ["s1"; "s2"];
              data := [[Float 60; Float 40; NaN]; [Float 70; NaN; Float 30]];
              attrs := [] |}.
Proof. eexists. split; [by vm_compute|]. by vm_compute. Qed.

(** ** The iteration order of the samples *)














(** ** [mergeAcrossSamplesTaxLevels] *)




(** * Further properties *)

(** ** [computeAll]: the dictionary it returns *)

Lemma dict_set_new {V : Type} (k : string) (v : V) (d : list (string * V)) :
  k ∉ d.*1 → dict_set k v d = d ++ [(k, v)].
Proof.
  induction d as [|[k' v'] d IH]; cbn; [done|].
  intros [Hne Hk]%not_elem_of_cons. rewrite decide_False by done. by rewrite IH.
Qed.

Lemma computeAll_dict_app (base : nat) (acc : list (string * ref))
    (its : list (nat * string)) :
  NoDup (acc.*1 ++ its.*2) →
  computeAll_dict base acc its = acc ++ zip its.*2 (seq base (length its)).
Proof.
  revert base acc. induction its as [|[i lvl] its IH]; intros base acc Hnd; cbn.
  - by rewrite app_nil_r.
  - cbn in Hnd. apply NoDup_app in Hnd as (Hacc & Hdisj & [Hlvl Hits]%NoDup_cons).
    rewrite dict_set_new by (intros Hin; apply (Hdisj _ Hin); by left).
    rewrite IH, <-app_assoc; [done|]. rewrite fmap_app. cbn.
    apply NoDup_app. split_and!; [|intros k [Hk| ->%list_elem_of_singleton]%elem_of_app|done].
    + apply NoDup_app. split_and!; [done| |apply NoDup_singleton].
      intros k Hk ->%list_elem_of_singleton. apply (Hdisj _ Hk). by left.
    + intros Hin. apply (Hdisj _ Hk). by right.
    + done.
Qed.

(** X1.  The dictionary [computeAll] returns has the levels of the
    hierarchy as its keys, in the order of the hierarchy; it binds them to
    as many new objects, one per level; the objects that existed before are
    still there, and nothing is printed. *)
Theorem computeAll_returns_one_table_per_level `{Hierarchy, Argsort}
    (r : ref) (df : DataFrame) (σ : state) :
  NoDup TAXONOMY_HIERARCHY → heap σ !! r = Some df → has_levels df →
  ∃ σ',
    computeAll r σ
    = (σ', inr (zip TAXONOMY_HIERARCHY
                    (seq (length (heap σ)) (length TAXONOMY_HIERARCHY)))) ∧
    length (heap σ') = length (heap σ) + length TAXONOMY_HIERARCHY ∧
    heap σ `prefix_of` heap σ' ∧
    stdout σ' = stdout σ.
Proof.
  intros Hnd Hr Hdf. unfold computeAll.
  rewrite (computeAll_loop_run r df) by
    (done || apply Forall_forall; intros; by apply has_levels_take).
  set (its := zip (seq 0 (length TAXONOMY_HIERARCHY)) TAXONOMY_HIERARCHY).
  assert (its.*2 = TAXONOMY_HIERARCHY) as Hits2.
  { apply snd_zip. by rewrite length_seq. }
  assert (length its = length TAXONOMY_HIERARCHY) as Hlen.
  { by rewrite <-(length_fmap snd its), Hits2. }
  clearbody its.
  rewrite computeAll_dict_app by (change (NoDup its.*2); rewrite Hits2; exact Hnd).
  rewrite Hlen, Hits2. eexists. split; [reflexivity|]. cbn [heap stdout].
  split_and!; [|by apply prefix_app_r|done].
  by rewrite length_app, length_fmap, Hlen.
Qed.

(** ** [computeAll]: one row per distinct key, with the number of its records *)

Lemma label_lt_trans (a b c : label) : label_lt a b → label_lt b c → label_lt a c.
Proof.
  intros [Hab Hne] [Hbc Hne']. split; [by trans b|]. intros ->.
  apply Hne. by apply (anti_symm label_le).
Qed.

Lemma elem_of_count_insert (k x : label) (g : list (label * Z)) :
  x ∈ (count_insert k g).*1 ↔ x = k ∨ x ∈ g.*1.
Proof.
  induction g as [|[k' n] g IH]; cbn.
  - rewrite list_elem_of_singleton. split; [by left|]. by intros [?|?%elem_of_nil].
  - destruct (decide (k = k')) as [->|Hne]; cbn.
    + rewrite elem_of_cons. tauto.
    + destruct (label_leb k k'); cbn; rewrite !elem_of_cons, ?IH; tauto.
Qed.

Lemma count_insert_sorted (k : label) (g : list (label * Z)) :
  StronglySorted label_lt g.*1 → StronglySorted label_lt (count_insert k g).*1.
Proof.
  induction g as [|[k' n] g IH]; cbn; intros Hg.
  - repeat constructor.
  - apply StronglySorted_inv in Hg as [Hg Hk'].
    destruct (decide (k = k')) as [->|Hne]; cbn; [by constructor|].
    destruct (label_leb k k') eqn:Hle; cbn.
    + assert (label_lt k k') as Hlt by done.
      constructor; [by constructor|]. constructor; [done|].
      eapply Forall_impl; [done|]. intros x Hx. by eapply label_lt_trans.
    + assert (label_lt k' k) as Hlt.
      { split; [|done]. destruct (total label_le k k') as [Hc|Hc]; [|done].
        unfold label_le in Hc. congruence. }
      constructor; [by apply IH|]. apply Forall_forall.
      intros x [->|Hx]%elem_of_count_insert; [done|].
      rewrite Forall_forall in Hk'. by apply Hk'.
Qed.

Lemma group_sizes_sorted (keys : list label) :
  StronglySorted label_lt (group_sizes keys).*1.
Proof.
  induction keys as [|k keys IH] using rev_ind; [constructor|].
  rewrite group_sizes_snoc. by apply count_insert_sorted.
Qed.

Lemma StronglySorted_label_lt_NoDup (l : list label) :
  StronglySorted label_lt l → NoDup l.
Proof.
  induction 1 as [|x l _ IH Hx]; constructor; [|done].
  intros Hin. rewrite Forall_forall in Hx. by destruct (Hx x Hin).
Qed.

Lemma assoc_notin {K V : Type} `{EqDecision K} (k : K) (l : list (K * V)) :
  k ∉ l.*1 → assoc k l = None.
Proof.
  induction l as [|[k' v] l IH]; cbn; [done|].
  intros [Hne Hk]%not_elem_of_cons. rewrite decide_False by done. auto.
Qed.

Lemma assoc_count_insert (k x : label) (g : list (label * Z)) :
  StronglySorted label_lt g.*1 →
  assoc x (count_insert k g)
  = if decide (x = k) then Some (default 0 (assoc k g) + 1)%Z else assoc x g.
Proof.
  induction g as [|[k' n] g IH]; cbn; intros Hg.
  - by repeat case_decide.
  - apply StronglySorted_inv in Hg as [Hg Hk'].
    destruct (decide (k = k')) as [->|Hne]; cbn.
    + by repeat case_decide; simplify_eq.
    + destruct (label_leb k k') eqn:Hle; cbn.
      * assert (assoc k g = None) as ->.
        { apply assoc_notin. intros Hin. rewrite Forall_forall in Hk'.
          destruct (Hk' k Hin) as [Hle' Hne']. apply Hne.
          by apply (anti_symm label_le). }
        by repeat case_decide; simplify_eq.
      * rewrite IH by done. by repeat case_decide; simplify_eq.
Qed.

Lemma filter_eq_notin (x : label) (keys : list label) :
  x ∉ keys → filter (λ y, y = x) keys = [].
Proof.
  induction keys as [|k keys IH]; [done|]. intros [Hne Hk]%not_elem_of_cons.
  rewrite filter_cons, decide_False by done. auto.
Qed.

(** The size [groupby] reports for a key is the number of rows with it. *)
Lemma assoc_group_sizes (x : label) (keys : list label) :
  assoc x (group_sizes keys)
  = if decide (x ∈ keys)
    then Some (Z.of_nat (length (filter (λ y, y = x) keys)))
    else None.
Proof.
  induction keys as [|k keys IH] using rev_ind.
  - cbn. by rewrite decide_False by apply not_elem_of_nil.
  - rewrite group_sizes_snoc, assoc_count_insert by apply group_sizes_sorted.
    rewrite filter_app, length_app, filter_cons, filter_nil.
    destruct (decide (x = k)) as [->|Hne].
    + rewrite (decide_True (P := k ∈ keys ++ [k]))
        by (apply elem_of_app; right; by left).
      rewrite IH, (decide_True (P := k = k)) by done. cbn. f_equal.
      case_decide; cbn; [lia|]. by rewrite filter_eq_notin.
    + rewrite IH, (decide_False (P := k = x)) by done. cbn.
      rewrite Nat.add_0_r. destruct (decide (x ∈ keys)) as [Hin|Hin].
      * by rewrite decide_True by (apply elem_of_app; by left).
      * rewrite decide_False; [done|].
        by intros [?|?%list_elem_of_singleton]%elem_of_app.
Qed.

Lemma elem_of_group_sizes (x : label) (keys : list label) :
  x ∈ (group_sizes keys).*1 ↔ x ∈ keys.
Proof.
  induction keys as [|k keys IH] using rev_ind; [done|].
  rewrite group_sizes_snoc, elem_of_count_insert, IH, elem_of_app,
    list_elem_of_singleton. tauto.
Qed.

Lemma assoc_elem_of {K V : Type} `{EqDecision K} (l : list (K * V)) (k : K) (v : V) :
  NoDup l.*1 → (k, v) ∈ l → assoc k l = Some v.
Proof.
  induction l as [|[k' v'] l IH]; cbn; intros Hnd Hin; [by apply elem_of_nil in Hin|].
  apply NoDup_cons in Hnd as [Hk Hnd].
  apply elem_of_cons in Hin as [[= -> ->]|Hin]; [by rewrite decide_True|].
  rewrite decide_False; [by apply IH|].
  intros ->. apply Hk. apply list_elem_of_fmap. by exists (k', v).
Qed.

Lemma histogram_frame_labels `{Argsort, !ArgsortContract} (df : DataFrame)
    (keys : list string) :
  labels (index (histogram_frame df keys)) ≡ₚ (groups df keys).*1.
Proof.
  cbn. apply take_along_Permutation. rewrite length_fmap.
  apply sorted_positions_perm.
Qed.

(** X2.  Every histogram has exactly one row for each distinct key among
    the records that have a value at each level down to that of the
    histogram, and the [count] of a row is the number of these records with
    the key of the row. *)
Theorem computeAll_one_row_per_key `{Hierarchy, Argsort, !ArgsortContract}
    (r : ref) (df : DataFrame) (σ : state) :
  NoDup TAXONOMY_HIERARCHY → heap σ !! r = Some df → has_levels df →
  ∃ σ' hist,
    computeAll r σ = (σ', inr hist) ∧
    ∀ i lvl, TAXONOMY_HIERARCHY !! i = Some lvl →
      ∃ h f counts,
        assoc lvl hist = Some h ∧ heap σ' !! h = Some f ∧
        column f (Scalar "count") = Some (Int <$> counts) ∧
        NoDup (labels (index f)) ∧
        (∀ k, k ∈ labels (index f) ↔
              k ∈ make_label <$> classified df (take (S i) TAXONOMY_HIERARCHY)) ∧
        (∀ j k n,
           labels (index f) !! j = Some k → counts !! j = Some n →
           n = Z.of_nat (length (filter (λ y, y = k)
                 (make_label <$> classified df (take (S i) TAXONOMY_HIERARCHY))))).
Proof.
  intros Hnd Hr Hdf.
  destruct (computeAll_run r df σ Hnd Hr Hdf) as (σ' & hist & Hrun & _ & Hlv).
  exists σ', hist. split; [done|]. intros i lvl Hi.
  destruct (Hlv i lvl Hi) as (h & Hh & Hf).
  set (keys := take (S i) TAXONOMY_HIERARCHY) in *.
  exists h, (histogram_frame df keys), (sorted_counts df keys).
  pose proof (group_sizes_sorted (make_label <$> classified df keys)) as Hsorted.
  apply StronglySorted_label_lt_NoDup in Hsorted.
  split_and!; [done|done|apply histogram_frame_count| | |].
  - rewrite histogram_frame_labels. done.
  - intros k. rewrite histogram_frame_labels. apply elem_of_group_sizes.
  - intros j k n Hk Hn.
    assert ((k, n) ∈ groups df keys) as Hin.
    { rewrite <-histogram_frame_rows. by eapply (elem_of_lookup_zip_with_2 pair). }
    apply (assoc_elem_of _ _ _ Hsorted) in Hin. unfold groups in Hin.
    rewrite assoc_group_sizes in Hin. case_decide; by simplify_eq.
Qed.

(** ** [computeAll]: counts and percentages are positive *)






(** ** [computeAll]: the index of a histogram *)

Lemma classified_length (df : DataFrame) (keys : list string) (k : list string) :
  k ∈ classified df keys → length k = length keys.
Proof.
  unfold classified, key_rows.
  destruct (mapM _ keys) as [cols|] eqn:Hcols; [|by intros ?%elem_of_nil].
  apply length_mapM in Hcols.
  intros (row & Hrow & Hk)%list_elem_of_omap.
  apply list_elem_of_fmap in Hrow as (j & -> & _).
  unfold key_of_row in Hk. apply length_mapM in Hk.
  unfold row_of in Hk. rewrite length_fmap in Hk. lia.
Qed.

Lemma make_label_of_level (i : nat) (k : list string) :
  length k = S i → label_of_level i (make_label k).
Proof.
  destruct i as [|i]; destruct k as [|s [|s' k]]; cbn; intros Hk; try done.
  - by exists s.
  - by eexists.
Qed.

(** X4.  The index of the histogram of a level is named after the levels of
    the hierarchy down to that level; its row labels are single values at
    the first level and tuples with one value per level below. *)
Theorem computeAll_index `{Hierarchy, Argsort, !ArgsortContract}
    (r : ref) (df : DataFrame) (σ : state) :
  NoDup TAXONOMY_HIERARCHY → heap σ !! r = Some df → has_levels df →
  ∃ σ' hist,
    computeAll r σ = (σ', inr hist) ∧
    ∀ i lvl, TAXONOMY_HIERARCHY !! i = Some lvl →
      ∃ h f,
        assoc lvl hist = Some h ∧ heap σ' !! h = Some f ∧
        names (index f) = Some <$> take (S i) TAXONOMY_HIERARCHY ∧
        Forall (label_of_level i) (labels (index f)).
Proof.
  intros Hnd Hr Hdf.
  destruct (computeAll_run r df σ Hnd Hr Hdf) as (σ' & hist & Hrun & _ & Hlv).
  exists σ', hist. split; [done|]. intros i lvl Hi.
  destruct (Hlv i lvl Hi) as (h & Hh & Hf).
  set (keys := take (S i) TAXONOMY_HIERARCHY) in *.
  exists h, (histogram_frame df keys). split_and!; [done..|].
  rewrite histogram_frame_labels. apply Forall_forall.
  intros l Hl. unfold groups in Hl. rewrite elem_of_group_sizes in Hl.
  apply list_elem_of_fmap in Hl as (k & -> & Hk).
  apply make_label_of_level. rewrite (classified_length _ _ _ Hk).
  unfold keys. rewrite length_take. apply lookup_lt_Some in Hi. lia.
Qed.

(** ** [computeAll]: a table without records, a table without a column *)

(** X5.  For a table that has the columns of the hierarchy and no record,
    [computeAll] raises no error: the histogram of every level has the
    columns [count] and [percent] and no row. *)
Theorem computeAll_empty_table `{Hierarchy, Argsort, !ArgsortContract}
    (r : ref) (df : DataFrame) (σ : state) :
  NoDup TAXONOMY_HIERARCHY → heap σ !! r = Some df → has_levels df →
  labels (index df) = [] →
  ∃ σ' hist,
    computeAll r σ = (σ', inr hist) ∧
    ∀ i lvl, TAXONOMY_HIERARCHY !! i = Some lvl →
      ∃ h f,
        assoc lvl hist = Some h ∧ heap σ' !! h = Some f ∧
        labels (index f) = [] ∧
        labels (columns f) = [Scalar "count"; Scalar "percent"] ∧
        data f = [[]; []].
Proof.
  intros Hnd Hr Hdf Hempty.
  destruct (computeAll_run r df σ Hnd Hr Hdf) as (σ' & hist & Hrun & _ & Hlv).
  exists σ', hist. split; [done|]. intros i lvl Hi.
  destruct (Hlv i lvl Hi) as (h & Hh & Hf).
  set (keys := take (S i) TAXONOMY_HIERARCHY) in *.
  assert (groups df keys = []) as Hg.
  { unfold groups, classified, key_rows. rewrite Hempty. by destruct (mapM _ _). }
  assert (sorted_positions df keys = []) as Hp.
  { apply Permutation_nil_r. rewrite sorted_positions_perm. by rewrite Hg. }
  exists h, (histogram_frame df keys). split_and!; [done|done|..].
  all: unfold histogram_frame; by rewrite Hp.
Qed.





(** ** [computeAllForSamples] *)

Lemma preserves_computeAllForSamples `{Hierarchy, Argsort} (n : nat)
    (sweep : list (string * ref)) :
  preserves n (λ _, True) (computeAllForSamples sweep).
Proof.
  unfold computeAllForSamples. preserves_step.
  eapply preserves_bind; [|intros; repeat preserves_step].
  apply (preserves_foldM n (λ _, True)); [|done].
  intros acc key _. unfold computeAllForSamples_step. preserves_step.
  destruct (assoc key sweep); [|apply preserves_raise].
  eapply preserves_bind; [apply preserves_computeAll|].
  intros. by apply preserves_ret.
Qed.

(** X7.  [computeAllForSamples] leaves every object that existed before the
    call as it was, also when it raises: the tables of the sweep dictionary
    are not changed. *)
Theorem computeAllForSamples_tables_unchanged `{Hierarchy, Argsort}
    (phylodistSweepDict : list (string * ref)) (σ : state) :
  heap σ `prefix_of` heap (computeAllForSamples phylodistSweepDict σ).1.
Proof. eapply preserves_prefix, preserves_computeAllForSamples. Qed.

Lemma computeAllForSamples_loop `{Hierarchy, Argsort}
    (sweep l : list (string * ref)) (tables : list DataFrame)
    (acc : list (string * list (string * ref))) (σ0 σ : state) :
  NoDup TAXONOMY_HIERARCHY →
  Forall (λ e, assoc e.1 sweep = Some e.2) l →
  Forall2 (λ e df, heap σ0 !! e.2 = Some df ∧ has_levels df) l tables →
  heap σ0 `prefix_of` heap σ →
  NoDup (acc.*1 ++ l.*1) →
  ∃ σ' new,
    foldM (computeAllForSamples_step sweep) acc l.*1 σ = (σ', inr (acc ++ new)) ∧
    new.*1 = l.*1 ∧
    heap σ `prefix_of` heap σ' ∧
    stdout σ' = stdout σ ++ replicate (length l) "." ∧
    Forall2 (λ hists df, ∀ i lvl, TAXONOMY_HIERARCHY !! i = Some lvl →
               ∃ h, assoc lvl hists = Some h ∧
                    heap σ' !! h
                    = Some (histogram_frame df (take (S i) TAXONOMY_HIERARCHY)))
            new.*2 tables.
Proof.
  intros HH Hsweep Htables. revert acc σ Hsweep.
  induction Htables as [|[sample r] df l tables [Hr Hdf] _ IH];
    intros acc σ Hsweep Hp Hnd.
  - exists σ, []. rewrite !app_nil_r. split_and!; [done..|constructor].
  - apply Forall_cons in Hsweep as [Hs Hsweep]. cbn in Hs, Hr, Hdf.
    change (((sample, r) :: l).*1) with (sample :: l.*1) in *.
    cbn [foldM]. rewrite bind_run. unfold computeAllForSamples_step at 1.
    rewrite bind_run. cbn [stdout_write]. rewrite Hs.
    set (σ1 := {| heap := heap σ; stdout := stdout σ ++ ["."] |}).
    destruct (computeAll_run r df σ1) as (σ2 & hists & Hrun & Hout & Hlv);
      [done|by eapply prefix_lookup_Some|done|].
    pose proof (preserves_prefix _ _ σ1
                  (preserves_computeAll (length (heap σ1)) r)) as Hp12.
    rewrite Hrun in Hp12. cbn [fst] in Hp12.
    rewrite bind_run, Hrun, ret_run.
    apply NoDup_app in Hnd as (Hacc & Hdisj & [Hsl Hl]%NoDup_cons).
    rewrite dict_set_new by (intros Hin; apply (Hdisj _ Hin); by left).
    destruct (IH (acc ++ [(sample, hists)]) σ2) as (σ' & new & Hfold & Hnew & Hp' & Hout' & Hall).
    { done. }
    { by trans (heap σ). }
    { rewrite fmap_app. cbn. rewrite <-app_assoc. cbn.
      apply NoDup_app. split_and!; [done| |by constructor].
      intros k Hk Hin. apply (Hdisj _ Hk). done. }
    exists σ', ((sample, hists) :: new). split_and!.
    + rewrite Hfold. by rewrite <-app_assoc.
    + cbn. by rewrite Hnew.
    + by trans (heap σ2).
    + rewrite Hout', Hout. unfold σ1. cbn. by rewrite <-app_assoc.
    + constructor; [|done]. intros i lvl Hi.
      destruct (Hlv i lvl Hi) as (h & Hh & Hf). exists h. split; [done|].
      by eapply prefix_lookup_Some.
Qed.

Lemma assoc_lookup {V : Type} (l : list (string * V)) (j : nat) (k : string) (v : V) :
  NoDup l.*1 → l !! j = Some (k, v) → assoc k l = Some v.
Proof. intros Hnd Hj. apply assoc_NoDup; [done|]. by eapply list_elem_of_lookup_2. Qed.

(** What [computeAllForSamples] returns and prints for tables that have the
    columns of the hierarchy. *)
Lemma computeAllForSamples_run `{Hierarchy, Argsort}
    (sweep : list (string * ref)) (tables : list DataFrame) (σ : state) :
  NoDup TAXONOMY_HIERARCHY → NoDup sweep.*1 →
  Forall2 (λ e df, heap σ !! e.2 = Some df ∧ has_levels df) sweep tables →
  ∃ σ' d,
    computeAllForSamples sweep σ = (σ', inr d) ∧
    d.*1 = sweep.*1 ∧
    stdout σ' = stdout σ
                ++ ["computing histograms across taxonomy hierarchy for samples"]
                ++ replicate (length sweep) "." ++ ["done"] ∧
    ∀ j sample df i lvl,
      sweep.*1 !! j = Some sample → tables !! j = Some df →
      TAXONOMY_HIERARCHY !! i = Some lvl →
      ∃ hists h,
        assoc sample d = Some hists ∧ assoc lvl hists = Some h ∧
        heap σ' !! h = Some (histogram_frame df (take (S i) TAXONOMY_HIERARCHY)).
Proof.
  intros HH Hnd Htables. unfold computeAllForSamples.
  rewrite bind_run. cbn [stdout_write].
  set (σ1 := {| heap := heap σ; stdout := stdout σ ++ [_] |}).
  destruct (computeAllForSamples_loop sweep sweep tables [] σ σ1)
    as (σ2 & d & Hfold & Hd & Hp & Hout & Hall); [done| |done|done|done|].
  { apply Forall_forall. intros [k r] Hin. by apply assoc_NoDup. }
  rewrite bind_run, Hfold, bind_run. cbn [stdout_write]. rewrite ret_run.
  eexists _, d. split; [reflexivity|]. cbn [heap stdout]. split_and!.
  - done.
  - rewrite Hout. unfold σ1. cbn. by rewrite <-!app_assoc.
  - intros j sample df i lvl Hj Hdf Hi.
    rewrite <-Hd in Hj. apply list_lookup_fmap_Some in Hj as ([s hists] & -> & Hj).
    assert (d.*2 !! j = Some hists) as Hj2 by (by rewrite list_lookup_fmap, Hj).
    destruct (Forall2_lookup_lr _ _ _ _ _ _ Hall Hj2 Hdf i lvl Hi) as (h & Hh & Hf).
    exists hists, h. split_and!; [|done..].
    apply (assoc_lookup d j); [by rewrite Hd|done].
Qed.


Lemma foldM_app {A B : Type} (f : A → B → M A) (a : A) (l1 l2 : list B) (σ : state) :
  foldM f a (l1 ++ l2) σ = (a' ← foldM f a l1; foldM f a' l2) σ.
Proof.
  revert a σ. induction l1 as [|b l1 IH]; intros a σ; cbn [foldM app].
  - by rewrite bind_run, ret_run.
  - rewrite !bind_run. destruct (f a b σ) as [σ' [e|a']]; [done|].
    by rewrite IH, bind_run.
Qed.


(** ** [computeAllForSamples] followed by [mergeAcrossSamples] *)

Lemma assoc_fmap_snd {A B : Type} (g : A → B) (k : string) (d : list (string * A)) :
  assoc k ((λ e, (e.1, g e.2)) <$> d) = g <$> assoc k d.
Proof.
  induction d as [|[k' v] d IH]; cbn; [done|]. case_decide; [done|]. apply IH.
Qed.

Lemma collection_value_keys (d : list (string * list (string * ref))) :
  dict_keys (collection_value d) = d.*1.
Proof.
  cbn. rewrite <-list_fmap_compose. by apply list_fmap_ext.
Qed.

(** The collection [computeAllForSamples] returns is one [mergeAcrossSamples]
    accepts, at every level. *)
Lemma computeAllForSamples_valid `{Hierarchy, Argsort}
    (sweep : list (string * ref)) (tables : list DataFrame) (σ : state)
    (i : nat) (lvl : string) :
  NoDup TAXONOMY_HIERARCHY → NoDup sweep.*1 →
  Forall2 (λ e df, heap σ !! e.2 = Some df ∧ has_levels df) sweep tables →
  TAXONOMY_HIERARCHY !! i = Some lvl →
  ∃ σ' d entries,
    computeAllForSamples sweep σ = (σ', inr d) ∧
    collection_value d = VDict entries ∧
    entries.*1 = sweep.*1 ∧
    valid_collection σ' entries lvl (level_histograms i tables).
Proof.
  intros HH Hnd Htables Hi.
  destruct (computeAllForSamples_run sweep tables σ HH Hnd Htables)
    as (σ' & d & Hrun & Hd & _ & Hall).
  exists σ', d. eexists. split; [done|]. split; [reflexivity|].
  assert (((λ e : string * list (string * ref),
              (e.1, VDict ((λ l, (l.1, VFrame l.2)) <$> e.2))) <$> d).*1 = sweep.*1)
    as Hkeys.
  { rewrite <-Hd, <-list_fmap_compose. by apply list_fmap_ext. }
  split; [done|]. split; [by rewrite Hkeys|].
  apply Forall2_same_length_lookup. split.
  { unfold level_histograms. rewrite !length_fmap, <-(length_fmap fst d), Hd, length_fmap.
    by eapply Forall2_length. }
  intros j e h He Hh.
  apply list_lookup_fmap_Some in He as ([sample hists] & -> & He).
  apply list_lookup_fmap_Some in Hh as (df & -> & Hdf).
  assert (sweep.*1 !! j = Some sample) as Hs.
  { by rewrite <-Hd, list_lookup_fmap, He. }
  destruct (Hall j sample df i lvl Hs Hdf Hi) as (hists' & r & Ha & Hr & Hf).
  rewrite (assoc_lookup d j sample hists) in Ha by (by rewrite ?Hd).
  injection Ha as <-. split; [|apply histogram_frame_is_histogram].
  cbn. by rewrite (assoc_fmap_snd VFrame), Hr.
Qed.

(** *** The columns of a merged table *)






Lemma join_index_NoDup (l r : list label) : NoDup (join_index l r).
Proof.
  unfold join_index. rewrite merge_sort_Permutation. apply NoDup_remove_dups.
Qed.

Lemma merge_frames_NoDup (acc : DataFrame) (l : list (string * DataFrame)) :
  NoDup (labels (index acc)) → NoDup (labels (index (merge_frames acc l))).
Proof.
  revert acc. induction l as [|[sample h] l IH]; intros acc Hacc; cbn; [done|].
  apply IH. cbn. apply join_index_NoDup.
Qed.

Lemma merged_frame_NoDup (l : list (string * DataFrame)) (f : DataFrame) :
  Forall (λ p, NoDup (labels (index p.2))) l → merged_frame l = Some f →
  NoDup (labels (index f)).
Proof.
  destruct l as [|[sample h] l]; [done|]. intros [Hnd _]%Forall_cons [= <-].
  by apply merge_frames_NoDup.
Qed.

(** *** Summing a column of percentages and missing values *)







(** *** From the sweep to the merged table *)

Lemma histogram_frame_NoDup `{Argsort, !ArgsortContract} (df : DataFrame)
    (keys : list string) :
  NoDup (labels (index (histogram_frame df keys))).
Proof.
  rewrite histogram_frame_labels.
  apply StronglySorted_label_lt_NoDup, group_sizes_sorted.
Qed.

Lemma elem_of_histogram_frame `{Argsort, !ArgsortContract} (df : DataFrame)
    (keys : list string) (k : label) :
  k ∈ labels (index (histogram_frame df keys)) ↔ k ∈ make_label <$> classified df keys.
Proof. rewrite histogram_frame_labels. apply elem_of_group_sizes. Qed.

Lemma Forall_zip_snd {A B : Type} (P : B → Prop) (ks : list A) (hs : list B) :
  Forall P hs → Forall (λ p, P p.2) (zip ks hs).
Proof.
  intros Hhs. apply Forall_forall. intros [k h] Hin.
  apply elem_of_zip_r in Hin. by eapply (proj1 (Forall_forall P hs)).
Qed.

Lemma computeAllForSamples_merge_run `{Hierarchy, Argsort}
    (sweep : list (string * ref)) (tables : list DataFrame) (σ : state)
    (i : nat) (lvl : string) (verbose : bool) :
  NoDup TAXONOMY_HIERARCHY → NoDup sweep.*1 → sweep ≠ [] →
  Forall2 (λ e df, heap σ !! e.2 = Some df ∧ has_levels df) sweep tables →
  TAXONOMY_HIERARCHY !! i = Some lvl →
  ∃ σ1 d σ2 m f,
    computeAllForSamples sweep σ = (σ1, inr d) ∧
    mergeAcrossSamples (collection_value d) lvl verbose σ1 = (σ2, inr m) ∧
    heap σ2 !! m = Some f ∧
    merged_frame (zip sweep.*1 (level_histograms i tables)) = Some f.
Proof.
  intros HH Hnd Hne Htables Hi.
  destruct (computeAllForSamples_valid sweep tables σ i lvl HH Hnd Htables Hi)
    as (σ1 & d & entries & Hrun & Hd & Hkeys & Hvalid).
  destruct (mergeAcrossSamples_run σ1 entries lvl verbose
              (level_histograms i tables))
    as (σ2 & m & f & Hmerge & Hm & Hf & _); [by eapply list_elem_of_lookup_2| |done|].
  { intros ->. by destruct sweep. }
  exists σ1, d, σ2, m, f. rewrite Hd, <-Hkeys. done.
Qed.

(** X10.  Merging what [computeAllForSamples] returns, at a level of the
    hierarchy, gives a table with one column per sample of the sweep, in
    the order of the sweep, and one row for each key that occurs at that
    level among the classified records of some sample. *)
Theorem computeAllForSamples_then_merge `{Hierarchy, Argsort, !ArgsortContract}
    (sweep : list (string * ref)) (tables : list DataFrame) (σ : state)
    (i : nat) (lvl : string) (verbose : bool) :
  NoDup TAXONOMY_HIERARCHY → NoDup sweep.*1 → sweep ≠ [] →
  Forall2 (λ e df, heap σ !! e.2 = Some df ∧ has_levels df) sweep tables →
  TAXONOMY_HIERARCHY !! i = Some lvl →
  ∃ σ1 d σ2 m f,
    computeAllForSamples sweep σ = (σ1, inr d) ∧
    mergeAcrossSamples (collection_value d) lvl verbose σ1 = (σ2, inr m) ∧
    heap σ2 !! m = Some f ∧
    labels (columns f) = Scalar <$> sweep.*1 ∧
    length (data f) = length sweep ∧
    NoDup (labels (index f)) ∧
    (∀ k, k ∈ labels (index f) ↔
          ∃ df, df ∈ tables ∧
                k ∈ make_label <$> classified df (take (S i) TAXONOMY_HIERARCHY)).
Proof.
  intros HH Hnd Hne Htables Hi.
  destruct (computeAllForSamples_merge_run sweep tables σ i lvl verbose
              HH Hnd Hne Htables Hi) as (σ1 & d & σ2 & m & f & Hrun & Hmerge & Hm & Hf).
  exists σ1, d, σ2, m, f. split_and!; [done..| | | |].
  all: pose proof (Forall2_length _ _ _ Htables) as Hlen.
  all: assert (length (level_histograms i tables) = length sweep) as Hlen'
         by (unfold level_histograms; by rewrite length_fmap).
  all: assert (Forall (λ p : string * DataFrame, is_histogram p.2)
                 (zip sweep.*1 (level_histograms i tables))) as Hhs
         by (apply Forall_zip_snd, Forall_fmap, Forall_true; intros df;
             apply histogram_frame_is_histogram).
  all: destruct (merged_frame_merged_of _ _ Hhs Hf) as (Hcols & Hdata & Hrows).
  - by rewrite Hcols, fst_zip by (rewrite length_fmap; lia).
  - rewrite (Forall2_length _ _ _ Hdata), length_zip, Hlen', length_fmap. lia.
  - apply (merged_frame_NoDup _ _) with (2 := Hf).
    apply (Forall_zip_snd (λ h, NoDup (labels (index h)))), Forall_fmap, Forall_true.
    intros df. apply histogram_frame_NoDup.
  - intros k. rewrite Hrows. split.
    + intros ([s h] & Hin & Hk). apply elem_of_zip_r in Hin.
      apply list_elem_of_fmap in Hin as (df & -> & Hdf). exists df. split; [done|].
      by apply elem_of_histogram_frame.
    + intros (df & Hdf & Hk). apply list_elem_of_lookup in Hdf as [j Hj].
      destruct (lookup_lt_is_Some_2 sweep.*1 j) as [s Hs].
      { rewrite length_fmap, Hlen. by eapply lookup_lt_Some. }
      exists (s, histogram_frame df (take (S i) TAXONOMY_HIERARCHY)). split.
      * eapply (list_elem_of_lookup_2 _ j), lookup_zip_with_Some.
        eexists _, _. split_and!; [done..|].
        unfold level_histograms. by rewrite list_lookup_fmap, Hj.
      * by apply elem_of_histogram_frame.
Qed.


(** ** [mergeAcrossSamples]: errors, output and row order *)

Lemma validate_state (v : value) (σ : state) :
  (validateSampleDictTaxHistDict v σ).1 = σ.
Proof. destruct v as [| | | |[|entry d]]; reflexivity. Qed.

(** X12.  At a level of the hierarchy, [mergeAcrossSamples] checks the
    collection before anything else: an error of
    [validateSampleDictTaxHistDict] is the error of the call, and the state
    is as it was, nothing printed. *)
Theorem mergeAcrossSamples_invalid_collection `{Hierarchy} (v : value)
    (lvl : string) (verbose : bool) (σ : state) (e : exn) :
  lvl ∈ TAXONOMY_HIERARCHY →
  (validateSampleDictTaxHistDict v σ).2 = inl e →
  mergeAcrossSamples v lvl verbose σ = (σ, inl e).
Proof.
  intros Hlvl He. unfold mergeAcrossSamples. rewrite decide_True by done.
  rewrite bind_run. pose proof (validate_state v σ) as Hσ.
  destruct (validateSampleDictTaxHistDict v σ) as [σ' [e'|[]]]; cbn in *; congruence.
Qed.

(** *** Computations that read only the heap *)

Section heap_only.
Context {A B : Type}.

Lemma heap_only_ret (a : A) : heap_only (mret a : M A).
Proof. by intros σ1 σ2 Hh. Qed.

Lemma heap_only_raise (e : exn) : heap_only (raise e : M A).
Proof. by intros σ1 σ2 Hh. Qed.

Lemma heap_only_lift (r : exn + A) : heap_only (lift r).
Proof. by intros σ1 σ2 Hh. Qed.

Lemma heap_only_bind (m : M A) (f : A → M B) :
  heap_only m → (∀ a, heap_only (f a)) → heap_only (m ≫= f).
Proof.
  intros Hm Hf σ1 σ2 Hh. rewrite !bind_run.
  destruct (Hm σ1 σ2 Hh) as [Hr Hh'].
  destruct (m σ1) as [σ1' [e1|a1]], (m σ2) as [σ2' [e2|a2]]; cbn in *;
    simplify_eq; [done|]. by apply Hf.
Qed.
End heap_only.

Lemma heap_only_foldM {A B : Type} (f : A → B → M A) (a : A) (l : list B) :
  (∀ a b, heap_only (f a b)) → heap_only (foldM f a l).
Proof.
  intros Hf. revert a. induction l as [|b l IH]; intros a; cbn [foldM].
  - apply heap_only_ret.
  - by apply heap_only_bind.
Qed.

Lemma heap_only_alloc (df : DataFrame) : heap_only (alloc df).
Proof. intros σ1 σ2 Hh. cbn. by rewrite Hh. Qed.

Lemma heap_only_read (r : ref) : heap_only (read r).
Proof.
  intros σ1 σ2 Hh. unfold read. rewrite Hh. by destruct (heap σ2 !! r).
Qed.

Lemma heap_only_write (r : ref) (df : DataFrame) : heap_only (write r df).
Proof. intros σ1 σ2 Hh. cbn. by rewrite Hh. Qed.

Lemma heap_only_getitem (v : value) (k : string) : heap_only (getitem v k).
Proof.
  destruct v as [| | | |d]; try apply heap_only_raise.
  cbn. destruct (assoc k d); [apply heap_only_ret|apply heap_only_raise].
Qed.

Lemma heap_only_as_frame (v : value) : heap_only (as_frame v).
Proof. destruct v; first [apply heap_only_ret|apply heap_only_raise]. Qed.

Lemma heap_only_mergeAcrossSamples_step (v : value) (lvl : string)
    (vars : bool * option ref) (sample : string) :
  heap_only (mergeAcrossSamples_step v lvl vars sample).
Proof.
  destruct vars as [first merged]. unfold mergeAcrossSamples_step.
  repeat first
    [ apply heap_only_bind; [|intros ?]
    | apply heap_only_getitem | apply heap_only_as_frame | apply heap_only_read
    | apply heap_only_lift | apply heap_only_alloc | apply heap_only_write
    | apply heap_only_ret | apply heap_only_raise
    | destruct first | destruct merged ].
Qed.

(** *** Computations that print nothing *)

Section silent.
Context {A B : Type}.

Lemma silent_ret (a : A) : silent (mret a : M A).
Proof. by intros σ. Qed.

Lemma silent_raise (e : exn) : silent (raise e : M A).
Proof. by intros σ. Qed.

Lemma silent_lift (r : exn + A) : silent (lift r).
Proof. by intros σ. Qed.

Lemma silent_bind (m : M A) (f : A → M B) :
  silent m → (∀ a, silent (f a)) → silent (m ≫= f).
Proof.
  intros Hm Hf σ. rewrite bind_run. pose proof (Hm σ) as Hσ.
  destruct (m σ) as [σ' [e|a]]; cbn in *; [done|]. by rewrite Hf.
Qed.
End silent.

Lemma silent_foldM {A B : Type} (f : A → B → M A) (a : A) (l : list B) :
  (∀ a b, silent (f a b)) → silent (foldM f a l).
Proof.
  intros Hf. revert a. induction l as [|b l IH]; intros a; cbn [foldM].
  - apply silent_ret.
  - by apply silent_bind.
Qed.

Lemma silent_alloc (df : DataFrame) : silent (alloc df).
Proof. by intros σ. Qed.

Lemma silent_read (r : ref) : silent (read r).
Proof. intros σ. unfold read. by destruct (heap σ !! r). Qed.

Lemma silent_write (r : ref) (df : DataFrame) : silent (write r df).
Proof. by intros σ. Qed.

Lemma silent_getitem (v : value) (k : string) : silent (getitem v k).
Proof.
  destruct v as [| | | |d]; try apply silent_raise.
  cbn. destruct (assoc k d); [apply silent_ret|apply silent_raise].
Qed.

Lemma silent_as_frame (v : value) : silent (as_frame v).
Proof. destruct v; first [apply silent_ret|apply silent_raise]. Qed.

Lemma silent_mergeAcrossSamples_step (v : value) (lvl : string)
    (vars : bool * option ref) (sample : string) :
  silent (mergeAcrossSamples_step v lvl vars sample).
Proof.
  destruct vars as [first merged]. unfold mergeAcrossSamples_step.
  repeat first
    [ apply silent_bind; [|intros ?]
    | apply silent_getitem | apply silent_as_frame | apply silent_read
    | apply silent_lift | apply silent_alloc | apply silent_write
    | apply silent_ret | apply silent_raise
    | destruct first | destruct merged ].
Qed.

(** X13.  The [verbose] flag of [mergeAcrossSamples] changes the output only:
    with or without it the call returns the same reference or raises the
    same error, and leaves the same objects; without it nothing is
    printed. *)
Theorem mergeAcrossSamples_verbose `{Hierarchy} (v : value) (lvl : string)
    (σ : state) :
  (mergeAcrossSamples v lvl true σ).2 = (mergeAcrossSamples v lvl false σ).2 ∧
  heap (mergeAcrossSamples v lvl true σ).1 = heap (mergeAcrossSamples v lvl false σ).1 ∧
  stdout (mergeAcrossSamples v lvl false σ).1 = stdout σ.
Proof.
  unfold mergeAcrossSamples. case_decide as Hlvl; [|done].
  rewrite !bind_run. pose proof (validate_state v σ) as Hσ.
  destruct (validateSampleDictTaxHistDict v σ) as [σ' [e|[]]]; cbn in Hσ; subst σ';
    [done|].
  rewrite !bind_run. cbn [stdout_write]. rewrite ret_run, !bind_run.
  set (loop := foldM (mergeAcrossSamples_step v lvl) (true, None) (dict_keys v)).
  set (σ1 := {| heap := heap σ; stdout := stdout σ ++ [_] |}).
  assert (heap_only loop) as Hloop.
  { apply heap_only_foldM. intros. apply heap_only_mergeAcrossSamples_step. }
  assert (silent loop) as Hsilent.
  { apply silent_foldM. intros. apply silent_mergeAcrossSamples_step. }
  destruct (Hloop σ1 σ eq_refl) as [Hr Hh]. specialize (Hsilent σ).
  destruct (loop σ1) as [σt [et|[ft mt]]], (loop σ) as [σf [ef|[ff mf]]];
    cbn in Hr, Hh, Hsilent; simplify_eq; [done|].
  rewrite !bind_run. cbn [stdout_write]. rewrite ret_run. cbn [snd].
  by destruct mf.
Qed.

(** *** A sample without the level *)

Lemma mergeAcrossSamples_step_KeyError (entries : list (string * value))
    (lvl sample : string) (hists : list (string * value))
    (vars : bool * option ref) (σ : state) :
  assoc sample entries = Some (VDict hists) → assoc lvl hists = None →
  mergeAcrossSamples_step (VDict entries) lvl vars sample σ = (σ, inl (KeyError lvl)).
Proof.
  intros He Hl. destruct vars as [first merged]. unfold mergeAcrossSamples_step.
  rewrite bind_run, (getitem_run _ _ _ _ He), bind_run. cbn. by rewrite Hl.
Qed.

(** X14.  When the histograms of a sample have no entry for the level,
    [mergeAcrossSamples] raises [KeyError] for the level, after it has
    merged the samples before that one: what it printed is the first
    message only, and no object that existed before is changed. *)
Theorem mergeAcrossSamples_missing_level `{Hierarchy} (σ : state)
    (pre post : list (string * value)) (sample : string)
    (hists : list (string * value)) (lvl : string) (verbose : bool)
    (hs : list DataFrame) :
  lvl ∈ TAXONOMY_HIERARCHY →
  NoDup (pre ++ (sample, VDict hists) :: post).*1 →
  Forall2 (λ e h, level_frame σ e.2 lvl = Some h ∧ is_histogram h) pre hs →
  assoc lvl hists = None →
  ∃ σ',
    mergeAcrossSamples (VDict (pre ++ (sample, VDict hists) :: post)) lvl verbose σ
    = (σ', inl (KeyError lvl)) ∧
    heap σ `prefix_of` heap σ' ∧
    stdout σ' = stdout σ ++ (if verbose
                             then ["merging across samples for " +:+ lvl +:+ " ... "]
                             else []).
Proof.
  intros Hlvl Hnd Hpre Hl.
  set (entries := pre ++ (sample, VDict hists) :: post) in *.
  assert (assoc sample entries = Some (VDict hists)) as He.
  { apply assoc_NoDup; [done|]. unfold entries. apply elem_of_app. right. by left. }
  assert (Forall (sample_of σ entries lvl) (zip pre.*1 hs)) as Hs.
  { apply Forall_forall. intros [s h] Hin.
    apply elem_of_lookup_zip_with in Hin as (i & s' & h' & [= <- <-] & Hi & Hh').
    apply list_lookup_fmap_Some in Hi as ([s'' v] & -> & Hv).
    destruct (Forall2_lookup_lr _ _ _ _ _ _ Hpre Hv Hh') as [Hf Hh].
    exists v. split_and!; [|done..].
    apply assoc_NoDup; [done|]. unfold entries. apply elem_of_app. left.
    by eapply list_elem_of_lookup_2. }
  assert (validateSampleDictTaxHistDict (VDict entries) σ = (σ, inr ())) as Hval.
  { unfold entries. by destruct pre. }
  unfold mergeAcrossSamples. rewrite decide_True by done.
  rewrite bind_run, Hval.
  set (σ1 := {| heap := heap σ;
                stdout := stdout σ ++ (if verbose then
                  ["merging across samples for " +:+ lvl +:+ " ... "] else []) |}).
  assert ((if verbose then
             stdout_write ("merging across samples for " +:+ lvl +:+ " ... ")
           else mret ()) σ = (σ1, inr ())) as Hw.
  { destruct verbose; [done|]. rewrite ret_run. unfold σ1.
    rewrite app_nil_r. by destruct σ. }
  rewrite bind_run, Hw. cbn [dict_keys].
  assert (entries.*1 = pre.*1 ++ sample :: post.*1) as ->.
  { unfold entries. by rewrite fmap_app. }
  rewrite bind_run, foldM_app, bind_run.
  assert (∃ σ2 vars,
            foldM (mergeAcrossSamples_step (VDict entries) lvl) (true, None) pre.*1 σ1
            = (σ2, inr vars) ∧
            heap σ `prefix_of` heap σ2 ∧ stdout σ2 = stdout σ1)
    as (σ2 & vars & -> & Hp & Hout).
  { destruct Hpre as [|[s v] h pre hs [Hv Hh] Hpre].
    - exists σ1, (true, None). split_and!; reflexivity.
    - change (((s, v) :: pre).*1) with (s :: pre.*1) in *.
      cbn [zip zip_with] in Hs. apply Forall_cons in Hs as [(v' & Hv' & Hf' & Hh') Hs].
      cbn in Hv', Hf', Hh'. cbn [foldM].
      destruct (mergeAcrossSamples_step_first σ σ1 entries lvl s v' h None)
        as (σ2 & Hrun & Hheap & Hout); [done..|].
      rewrite bind_run, Hrun.
      destruct (mergeAcrossSamples_loop σ entries lvl (zip pre.*1 hs)
                  σ2 (S (length (heap σ1))) (sample_frame s h))
        as (σ3 & m & Hrun' & Hm & Hp & Hout').
      { done. }
      { rewrite Hheap. by apply prefix_app_r. }
      { rewrite Hheap. rewrite lookup_app_r by lia.
        by replace (S (length (heap σ1)) - length (heap σ1)) with 1 by lia. }
      rewrite fst_zip in Hrun'
        by (rewrite length_fmap; by erewrite Forall2_length).
      exists σ3, (false, Some m). split_and!; [done| |congruence].
      etrans; [|done]. rewrite Hheap. by apply prefix_app_r. }
  cbn [foldM]. rewrite bind_run.
  rewrite (mergeAcrossSamples_step_KeyError entries lvl sample hists vars σ2 He Hl).
  exists σ2. done.
Qed.

(** *** The order of the rows *)


(** ** [mergeAcrossSamplesTaxLevels] *)

(** X16.  [mergeAcrossSamplesTaxLevels] checks the collection first: an error
    of [validateSampleDictTaxHistDict] is the error of the call, whatever
    [metadata] is, and the state is as it was. *)
Theorem mergeAcrossSamplesTaxLevels_invalid_collection `{Hierarchy}
    (v metadata : value) (σ : state) (e : exn) :
  (validateSampleDictTaxHistDict v σ).2 = inl e →
  mergeAcrossSamplesTaxLevels v metadata σ = (σ, inl e).
Proof.
  intros He. unfold mergeAcrossSamplesTaxLevels.
  rewrite bind_run. pose proof (validate_state v σ) as Hσ.
  destruct (validateSampleDictTaxHistDict v σ) as [σ' [e'|[]]]; cbn in *; congruence.
Qed.

(** X17.  For a collection that passes validation, a [metadata] argument that
    is neither [None] nor a table makes [mergeAcrossSamplesTaxLevels] raise
    [TypeError] before it merges anything: the state is as it was. *)
Theorem mergeAcrossSamplesTaxLevels_metadata_type `{Hierarchy}
    (entries : list (string * value)) (metadata : value) (σ : state) :
  entries ≠ [] → is_None metadata = false → is_DataFrame metadata = false →
  mergeAcrossSamplesTaxLevels (VDict entries) metadata σ
  = (σ, inl (TypeError "metadata argument must be None or a DataFrame")).
Proof.
  intros Hne Hn Hd. destruct entries as [|entry entries]; [done|].
  unfold mergeAcrossSamplesTaxLevels. rewrite bind_run, validate_run.
  by rewrite Hn, Hd.
Qed.

(** *** The shape of a merged table *)



(** *** The joined table, column by column *)

Lemma joined_table_index (f meta : DataFrame) :
  labels (index (joined_table f meta)) = labels (index f) ++ labels (columns meta).
Proof. reflexivity. Qed.

Lemma joined_table_columns (f meta : DataFrame) :
  columns (joined_table f meta)
  = {| labels := labels (columns f); names := [Some "sample"] |}.
Proof. reflexivity. Qed.


(** *** One level *)



(** One turn of the loop, for a table of metadata. *)
Lemma mergeAcrossSamplesTaxLevels_step_run `{Hierarchy} (σ : state)
    (entries : list (string * value)) (lvl : string) (hs : list DataFrame)
    (r : ref) (meta f : DataFrame) (acc : list (string * ref)) :
  lvl ∈ TAXONOMY_HIERARCHY → entries ≠ [] → valid_collection σ entries lvl hs →
  heap σ !! r = Some meta →
  merged_frame (zip entries.*1 hs) = Some f →
  ∃ σ1,
    heap σ `prefix_of` heap σ1 ∧
    stdout σ1 = stdout σ ++ merge_messages lvl true ∧
    mergeAcrossSamplesTaxLevels_step (VDict entries) (VFrame r) acc lvl σ
    = match head (labels (index (joined_table f meta))) with
      | None =>
          ({| heap := heap σ1 ++ [joined_table f meta]; stdout := stdout σ1 |},
           inl (IndexError "index 0 is out of bounds for axis 0 with size 0"))
      | Some row0 =>
          ({| heap := heap σ1 ++ [name_index lvl row0 (joined_table f meta)];
              stdout := stdout σ1 |},
           inr (dict_set lvl (length (heap σ1)) acc))
      end.
Proof.
  intros Hlvl Hne Hvalid Hr Hf.
  destruct (mergeAcrossSamples_run σ entries lvl true hs Hlvl Hne Hvalid)
    as (σm & m & f' & Hrun & Hm & Hf' & Hp & Hout).
  rewrite Hf in Hf'. injection Hf' as <-.
  set (t1 := set_index_name "sample" (transpose f)).
  set (t2 := merge_left t1 meta).
  exists {| heap := heap σm ++ [t1; t2]; stdout := stdout σm |}.
  split_and!; cbn [heap stdout].
  { etrans; [done|]. by apply prefix_app_r. }
  { done. }
  unfold mergeAcrossSamplesTaxLevels_step.
  rewrite bind_run, Hrun, bind_run, (read_run _ _ _ Hm), bind_run, alloc_run.
  erewrite bind_run, read_run by (by apply list_lookup_middle).
  rewrite bind_run, write_run. cbn [heap stdout].
  rewrite insert_app_r_alt, Nat.sub_diag by done. cbn [insert list_insert].
  fold t1.
  erewrite bind_run, read_run by (by apply list_lookup_middle).
  rewrite bind_run. cbn [pd_merge_left].
  erewrite bind_run, read_run
    by (cbn [heap]; apply lookup_app_l_Some; by eapply prefix_lookup_Some).
  rewrite ret_run. fold t2.
  rewrite bind_run, alloc_run. cbn [heap stdout].
  erewrite bind_run, read_run by (by apply list_lookup_middle).
  rewrite bind_run, alloc_run. cbn [heap stdout].
  erewrite bind_run, read_run by (by apply list_lookup_middle).
  change (transpose t2) with (joined_table f meta).
  rewrite <-(app_assoc (heap σm) [t1] [t2]). cbn [app].
  rewrite bind_run.
  destruct (head (labels (index (joined_table f meta)))) as [row0|]; [|done].
  unfold name_index. destruct (is_tuple row0).
  - rewrite bind_run, write_run. cbn [heap stdout].
    rewrite insert_app_r_alt, Nat.sub_diag by done. cbn [insert list_insert].
    erewrite bind_run, read_run by (by apply list_lookup_middle).
    rewrite write_run. cbn [heap stdout].
    rewrite insert_app_r_alt, Nat.sub_diag by done. cbn [insert list_insert].
    by rewrite ret_run.
  - rewrite write_run. cbn [heap stdout].
    rewrite insert_app_r_alt, Nat.sub_diag by done. cbn [insert list_insert].
    by rewrite ret_run.
Qed.

Lemma valid_collection_histograms (σ : state) (entries : list (string * value))
    (lvl : string) (hs : list DataFrame) :
  valid_collection σ entries lvl hs →
  Forall (λ p : string * DataFrame, is_histogram p.2) (zip entries.*1 hs).
Proof.
  intros [_ Hall]. apply Forall_zip_snd.
  apply Forall_forall. intros h Hh. apply list_elem_of_lookup in Hh as [i Hi].
  destruct (Forall2_lookup_r _ _ _ _ _ Hall Hi) as (e & _ & _ & Hh). done.
Qed.






(** X20.  When no histogram of the first level has a row and the metadata
    have no column, the table of the first level has no first row to look
    at: [mergeAcrossSamplesTaxLevels] raises [IndexError]. *)
Theorem mergeAcrossSamplesTaxLevels_no_rows `{Hierarchy} (σ : state)
    (entries : list (string * value)) (lvl : string) (levels : list string)
    (hs : list DataFrame) (r : ref) (meta : DataFrame) :
  TAXONOMY_HIERARCHY = lvl :: levels → entries ≠ [] →
  valid_collection σ entries lvl hs → heap σ !! r = Some meta →
  labels (columns meta) = [] → Forall (λ h, labels (index h) = []) hs →
  ∃ σ',
    mergeAcrossSamplesTaxLevels (VDict entries) (VFrame r) σ
    = (σ', inl (IndexError "index 0 is out of bounds for axis 0 with size 0")).
Proof.
  intros HH Hne Hvalid Hr Hm Hempty.
  assert (lvl ∈ TAXONOMY_HIERARCHY) as Hlvl by (rewrite HH; by left).
  pose proof (valid_collection_length _ _ _ _ Hvalid) as Hlen.
  pose proof (valid_collection_histograms _ _ _ _ Hvalid) as Hhists.
  assert (∃ f, merged_frame (zip entries.*1 hs) = Some f) as [f Hf].
  { destruct entries as [|[s v] entries]; [done|]. destruct hs as [|h hs]; [done|].
    by eexists. }
  assert (labels (index f) = []) as Hf0.
  { destruct (merged_frame_merged_of _ _ Hhists Hf) as (_ & _ & Hrows).
    destruct (labels (index f)) as [|k ks] eqn:Hks; [done|].
    destruct (proj1 (Hrows k)) as ([s h] & Hin & Hk); [rewrite ?Hks; by left|].
    apply elem_of_zip_r in Hin. rewrite Forall_forall in Hempty.
    cbn in Hk. rewrite (Hempty h Hin) in Hk. by apply elem_of_nil in Hk. }
  destruct (mergeAcrossSamplesTaxLevels_step_run σ entries lvl hs r meta f [])
    as (σ1 & _ & _ & Hstep); [done..|].
  rewrite joined_table_index, Hf0, Hm in Hstep. cbn [app head] in Hstep.
  unfold mergeAcrossSamplesTaxLevels. destruct entries as [|entry entries]; [done|].
  rewrite bind_run, validate_run. cbn [is_None is_DataFrame negb andb].
  rewrite bind_run, ret_run, HH. cbn [foldM]. rewrite bind_run, Hstep.
  by eexists.
Qed.

(** ** The further theorems at concrete inputs *)

Lemma computeAll_returns_one_table_per_level_witness :
  NoDup example_hierarchy ∧
  heap (state_of [example_table]) !! 0 = Some example_table ∧
  @has_levels example_hierarchy example_table ∧
  ∃ σ',
    @computeAll example_hierarchy merge_argsort 0 (state_of [example_table])
    = (σ', inr (zip example_hierarchy
                    (seq (length (heap (state_of [example_table])))
                         (length example_hierarchy)))) ∧
    length (heap σ')
    = length (heap (state_of [example_table])) + length example_hierarchy ∧
    heap (state_of [example_table]) `prefix_of` heap σ' ∧
    stdout σ' = stdout (state_of [example_table]).
Proof.
  split_and!;
    [ exact example_hierarchy_NoDup | reflexivity | exact example_table_has_levels | ].
  exact (@computeAll_returns_one_table_per_level example_hierarchy merge_argsort
           0 example_table (state_of [example_table])
           example_hierarchy_NoDup eq_refl example_table_has_levels).
Defined.

Lemma computeAll_one_row_per_key_witness :
  NoDup example_hierarchy ∧
  heap (state_of [example_table]) !! 0 = Some example_table ∧
  @has_levels example_hierarchy example_table ∧
  ∃ σ' hist,
    @computeAll example_hierarchy merge_argsort 0 (state_of [example_table])
    = (σ', inr hist) ∧
    ∀ i lvl, example_hierarchy !! i = Some lvl →
      ∃ h f counts,
        assoc lvl hist = Some h ∧ heap σ' !! h = Some f ∧
        column f (Scalar "count") = Some (Int <$> counts) ∧
        NoDup (labels (index f)) ∧
        (∀ k, k ∈ labels (index f) ↔
              k ∈ make_label <$> classified example_table (take (S i) example_hierarchy)) ∧
        (∀ j k n,
           labels (index f) !! j = Some k → counts !! j = Some n →
           n = Z.of_nat (length (filter (λ y, y = k)
                 (make_label <$> classified example_table (take (S i) example_hierarchy))))).
Proof.
  split_and!;
    [ exact example_hierarchy_NoDup | reflexivity | exact example_table_has_levels | ].
  exact (@computeAll_one_row_per_key example_hierarchy merge_argsort
           merge_argsort_contract 0 example_table (state_of [example_table])
           example_hierarchy_NoDup eq_refl example_table_has_levels).
Defined.


Lemma computeAll_index_witness :
  NoDup example_hierarchy ∧
  heap (state_of [example_table]) !! 0 = Some example_table ∧
  @has_levels example_hierarchy example_table ∧
  ∃ σ' hist,
    @computeAll example_hierarchy merge_argsort 0 (state_of [example_table])
    = (σ', inr hist) ∧
    ∀ i lvl, example_hierarchy !! i = Some lvl →
      ∃ h f,
        assoc lvl hist = Some h ∧ heap σ' !! h = Some f ∧
        names (index f) = Some <$> take (S i) example_hierarchy ∧
        Forall (label_of_level i) (labels (index f)).
Proof.
  split_and!;
    [ exact example_hierarchy_NoDup | reflexivity | exact example_table_has_levels | ].
  exact (@computeAll_index example_hierarchy merge_argsort
           merge_argsort_contract 0 example_table (state_of [example_table])
           example_hierarchy_NoDup eq_refl example_table_has_levels).
Defined.

Lemma empty_table_has_levels : @has_levels example_hierarchy empty_table.
Proof. repeat constructor; by eexists. Qed.

Lemma computeAll_empty_table_witness :
  NoDup example_hierarchy ∧
  heap (state_of [empty_table]) !! 0 = Some empty_table ∧
  @has_levels example_hierarchy empty_table ∧
  labels (index empty_table) = [] ∧
  ∃ σ' hist,
    @computeAll example_hierarchy merge_argsort 0 (state_of [empty_table])
    = (σ', inr hist) ∧
    ∀ i lvl, example_hierarchy !! i = Some lvl →
      ∃ h f,
        assoc lvl hist = Some h ∧ heap σ' !! h = Some f ∧
        labels (index f) = [] ∧
        labels (columns f) = [Scalar "count"; Scalar "percent"] ∧
        data f = [[]; []].
Proof.
  split_and!;
    [ exact example_hierarchy_NoDup | reflexivity | exact empty_table_has_levels
    | reflexivity | ].
  exact (@computeAll_empty_table example_hierarchy merge_argsort
           merge_argsort_contract 0 empty_table (state_of [empty_table])
           example_hierarchy_NoDup eq_refl empty_table_has_levels eq_refl).
Defined.



Lemma example_sweep_NoDup : NoDup example_sweep.*1.
Proof.
  cbn. apply NoDup_cons. split; [by intros [=]%list_elem_of_singleton|].
  apply NoDup_singleton.
Qed.

Lemma unassigned_table_has_levels : @has_levels example_hierarchy unassigned_table.
Proof. repeat constructor; by eexists. Qed.

Lemma example_sweep_tables_ok :
  Forall2 (λ e df, heap (state_of example_sweep_tables) !! e.2 = Some df ∧
                   @has_levels example_hierarchy df)
    example_sweep example_sweep_tables.
Proof.
  constructor; [split; [reflexivity|exact example_table_has_levels]|].
  constructor; [split; [reflexivity|exact unassigned_table_has_levels]|].
  constructor.
Qed.


Lemma example_sweep_nonempty : example_sweep ≠ [].
Proof. done. Qed.

Lemma computeAllForSamples_then_merge_witness :
  NoDup example_hierarchy ∧
  NoDup example_sweep.*1 ∧
  example_sweep ≠ [] ∧
  Forall2 (λ e df, heap (state_of example_sweep_tables) !! e.2 = Some df ∧
                   @has_levels example_hierarchy df)
    example_sweep example_sweep_tables ∧
  example_hierarchy !! 0 = Some "kingdom" ∧
  ∃ σ1 d σ2 m f,
    @computeAllForSamples example_hierarchy merge_argsort example_sweep
      (state_of example_sweep_tables) = (σ1, inr d) ∧
    @mergeAcrossSamples example_hierarchy (collection_value d) "kingdom" true σ1
    = (σ2, inr m) ∧
    heap σ2 !! m = Some f ∧
    labels (columns f) = Scalar <$> example_sweep.*1 ∧
    length (data f) = length example_sweep ∧
    NoDup (labels (index f)) ∧
    (∀ k, k ∈ labels (index f) ↔
          ∃ df, df ∈ example_sweep_tables ∧
                k ∈ make_label <$> classified df (take 1 example_hierarchy)).
Proof.
  split_and!;
    [ exact example_hierarchy_NoDup | exact example_sweep_NoDup
    | exact example_sweep_nonempty | exact example_sweep_tables_ok | reflexivity | ].
  exact (@computeAllForSamples_then_merge example_hierarchy merge_argsort
           merge_argsort_contract
           example_sweep example_sweep_tables (state_of example_sweep_tables)
           0 "kingdom" true
           example_hierarchy_NoDup example_sweep_NoDup example_sweep_nonempty
           example_sweep_tables_ok eq_refl).
Defined.


Lemma mergeAcrossSamples_invalid_collection_witness :
  ("kingdom" ∈ example_hierarchy) ∧
  (validateSampleDictTaxHistDict VNone (state_of [histogram_s1])).2
  = inl (TypeError "argument sampleDictTaxHistDict should be a dict") ∧
  @mergeAcrossSamples example_hierarchy VNone "kingdom" true (state_of [histogram_s1])
  = (state_of [histogram_s1],
     inl (TypeError "argument sampleDictTaxHistDict should be a dict")).
Proof.
  split_and!; [ exact kingdom_in_example_hierarchy | reflexivity | ].
  exact (@mergeAcrossSamples_invalid_collection example_hierarchy VNone "kingdom"
           true (state_of [histogram_s1]) _ kingdom_in_example_hierarchy eq_refl).
Defined.

Lemma incomplete_collection_NoDup :
  NoDup (incomplete_collection_head ++ [("s2", VDict [])]).*1.
Proof.
  cbn. apply NoDup_cons. split; [by intros [=]%list_elem_of_singleton|].
  apply NoDup_singleton.
Qed.

Lemma incomplete_collection_head_valid :
  Forall2 (λ e h, level_frame (state_of [histogram_s1; histogram_s2]) e.2 "kingdom"
                  = Some h ∧ is_histogram h)
    incomplete_collection_head [histogram_s1].
Proof. repeat constructor; by eexists _, _. Qed.

Lemma mergeAcrossSamples_missing_level_witness :
  ("kingdom" ∈ example_hierarchy) ∧
  NoDup (incomplete_collection_head ++ [("s2", VDict [])]).*1 ∧
  Forall2 (λ e h, level_frame (state_of [histogram_s1; histogram_s2]) e.2 "kingdom"
                  = Some h ∧ is_histogram h)
    incomplete_collection_head [histogram_s1] ∧
  assoc "kingdom" ([] : list (string * value)) = None ∧
  ∃ σ',
    @mergeAcrossSamples example_hierarchy
      (VDict (incomplete_collection_head ++ [("s2", VDict [])])) "kingdom" true
      (state_of [histogram_s1; histogram_s2])
    = (σ', inl (KeyError "kingdom")) ∧
    heap (state_of [histogram_s1; histogram_s2]) `prefix_of` heap σ' ∧
    stdout σ' = stdout (state_of [histogram_s1; histogram_s2])
                ++ ["merging across samples for " +:+ "kingdom" +:+ " ... "].
Proof.
  split_and!;
    [ exact kingdom_in_example_hierarchy | exact incomplete_collection_NoDup
    | exact incomplete_collection_head_valid | reflexivity | ].
  exact (@mergeAcrossSamples_missing_level example_hierarchy
           (state_of [histogram_s1; histogram_s2]) incomplete_collection_head []
           "s2" [] "kingdom" true [histogram_s1]
           kingdom_in_example_hierarchy incomplete_collection_NoDup
           incomplete_collection_head_valid eq_refl).
Defined.



Lemma mergeAcrossSamplesTaxLevels_invalid_collection_witness :
  (validateSampleDictTaxHistDict (VDict []) two_level_state).2
  = inl (ValueError "argument sampleDictTaxHistDict must have at least one entry") ∧
  @mergeAcrossSamplesTaxLevels example_hierarchy (VDict []) (VStr "metadata")
    two_level_state
  = (two_level_state,
     inl (ValueError "argument sampleDictTaxHistDict must have at least one entry")).
Proof.
  split; [reflexivity|].
  exact (@mergeAcrossSamplesTaxLevels_invalid_collection example_hierarchy
           (VDict []) (VStr "metadata") two_level_state _ eq_refl).
Defined.

Lemma two_level_collection_nonempty : two_level_collection ≠ [].
Proof. done. Qed.

Lemma mergeAcrossSamplesTaxLevels_metadata_type_witness :
  two_level_collection ≠ [] ∧
  is_None (VStr "metadata") = false ∧
  is_DataFrame (VStr "metadata") = false ∧
  @mergeAcrossSamplesTaxLevels example_hierarchy (VDict two_level_collection)
    (VStr "metadata") two_level_state
  = (two_level_state,
     inl (TypeError "metadata argument must be None or a DataFrame")).
Proof.
  split_and!; [ exact two_level_collection_nonempty | reflexivity | reflexivity | ].
  exact (@mergeAcrossSamplesTaxLevels_metadata_type example_hierarchy
           two_level_collection (VStr "metadata") two_level_state
           two_level_collection_nonempty eq_refl eq_refl).
Defined.




Lemma incomplete_collection_head_nonempty : incomplete_collection_head ≠ [].
Proof. done. Qed.

Lemma empty_collection_valid :
  valid_collection empty_collection_state incomplete_collection_head "kingdom"
    [empty_histogram].
Proof.
  split; [cbn; apply NoDup_singleton|]. repeat constructor; by eexists _, _.
Qed.

Lemma empty_histograms_no_rows :
  Forall (λ h, labels (index h) = []) [empty_histogram].
Proof. by repeat constructor. Qed.

Lemma mergeAcrossSamplesTaxLevels_no_rows_witness :
  example_hierarchy = "kingdom" :: ["phylum"] ∧
  incomplete_collection_head ≠ [] ∧
  valid_collection empty_collection_state incomplete_collection_head "kingdom"
    [empty_histogram] ∧
  heap empty_collection_state !! 1 = Some bare_metadata ∧
  labels (columns bare_metadata) = [] ∧
  Forall (λ h, labels (index h) = []) [empty_histogram] ∧
  ∃ σ',
    @mergeAcrossSamplesTaxLevels example_hierarchy (VDict incomplete_collection_head)
      (VFrame 1) empty_collection_state
    = (σ', inl (IndexError "index 0 is out of bounds for axis 0 with size 0")).
Proof.
  split_and!;
    [ reflexivity | exact incomplete_collection_head_nonempty
    | exact empty_collection_valid | reflexivity | reflexivity
    | exact empty_histograms_no_rows | ].
  exact (@mergeAcrossSamplesTaxLevels_no_rows example_hierarchy
           empty_collection_state incomplete_collection_head "kingdom" ["phylum"]
           [empty_histogram] 1 bare_metadata eq_refl
           incomplete_collection_head_nonempty empty_collection_valid eq_refl eq_refl
           empty_histograms_no_rows).
Defined.



